(** * YouTube SEO workbench: the page component, the analyze route and the
      text-statistics aggregator

    A shallow embedding of
      - [src/app/src/app/page.tsx]  (the [Home] component: [channels],
        [handleAnalyze], [prettyFrequency]),
      - the route handler [POST] of [/api/analyze],
    together with a model of the aggregator [analyzeChannelsAndSuggest] of
    [@/lib/seo], whose source is not part of the tree and which is therefore
    modelled from the specification.

    JavaScript strings are modelled by [string]: a sequence of 8-bit code
    units, i.e. the Latin-1 range of UTF-16.  Counts are [Z] or [nat],
    the JSON numbers of the response that are floats are exact rationals. *)

From Stdlib Require Import List String Ascii Bool Arith ZArith Lia.
From Stdlib Require Import Sorted Permutation.
From Stdlib Require Import QArith.
From Stdlib Require DecimalString.
Import ListNotations.

Local Close Scope Q_scope.
Local Open Scope string_scope.
Local Open Scope list_scope.

(* ================================================================== *)
(** ** JavaScript string primitives used by the sources *)
(* ================================================================== *)

Module JsString.

(** ECMAScript [WhiteSpace] and [LineTerminator] code units below 256:
    TAB, LF, VT, FF, CR, SP and NBSP.  These are the code units
    [String.prototype.trim] strips. *)
Definition isWhiteSpace (c : ascii) : bool :=
  let n := nat_of_ascii c in
  ((n =? 9) || (n =? 10) || (n =? 11) || (n =? 12) || (n =? 13)
   || (n =? 32) || (n =? 160))%nat.

(** [s.trimStart()]. *)
Fixpoint trimStart (s : string) : string :=
  match s with
  | EmptyString => EmptyString
  | String c r => if isWhiteSpace c then trimStart r else s
  end.

(** [s.trimEnd()]: a code unit is kept when something that is kept
    follows it, or when it is not white space itself. *)
Fixpoint trimEnd (s : string) : string :=
  match s with
  | EmptyString => EmptyString
  | String c r =>
      match trimEnd r with
      | EmptyString => if isWhiteSpace c then EmptyString else String c EmptyString
      | String d r' => String c (String d r')
      end
  end.

(** [s.trim()]. *)
Definition trim (s : string) : string := trimEnd (trimStart s).

Definition LF : ascii := ascii_of_nat 10.

(** [s.split("\n")]: the pieces between line feeds; never an empty
    array (the empty string splits into one empty piece). *)
Fixpoint split_LF (s : string) : list string :=
  match s with
  | EmptyString => [EmptyString]
  | String c r =>
      if Ascii.eqb c LF then EmptyString :: split_LF r
      else match split_LF r with
           | piece :: pieces => String c piece :: pieces
           | [] => [String c EmptyString]
           end
  end.

(** [Boolean(s)] on a string: the empty string is the only falsy one. *)
Definition truthy (s : string) : bool :=
  match s with EmptyString => false | String _ _ => true end.

(** [a || b] on strings where [a] may be [undefined]. *)
Definition or_else (a : option string) (b : string) : string :=
  match a with
  | Some s => if truthy s then s else b
  | None => b
  end.

(** [items.join(sep)]. *)
Fixpoint join (sep : string) (items : list string) : string :=
  match items with
  | [] => EmptyString
  | [s] => s
  | s :: rest => s ++ sep ++ join sep rest
  end.

Definition upper_char (c : ascii) : ascii :=
  let n := nat_of_ascii c in
  if ((97 <=? n) && (n <=? 122))%nat then ascii_of_nat (n - 32) else c.

Definition lower_char (c : ascii) : ascii :=
  let n := nat_of_ascii c in
  if ((65 <=? n) && (n <=? 90))%nat then ascii_of_nat (n + 32) else c.

Fixpoint map_chars (f : ascii -> ascii) (s : string) : string :=
  match s with
  | EmptyString => EmptyString
  | String c r => String (f c) (map_chars f r)
  end.

(** [s.toUpperCase()] and [s.toLowerCase()] on text whose letters are
    ASCII.  JavaScript also maps the other letters of the 8-bit range,
    some of them to code units beyond it; such text is outside the domain
    of these two functions, which leave those code units as they are. *)
Definition toUpperCase : string -> string := map_chars upper_char.
Definition toLowerCase : string -> string := map_chars lower_char.

(** The first and the last code unit of a string. *)
Definition first_char (s : string) : option ascii :=
  match s with EmptyString => None | String c _ => Some c end.

Fixpoint last_char (s : string) : option ascii :=
  match s with
  | EmptyString => None
  | String c EmptyString => Some c
  | String _ r => last_char r
  end.

(** [`${n}`] for an integer. *)
Definition of_Z (n : Z) : string :=
  DecimalString.NilZero.string_of_int (Z.to_int n).

(** A line is blank when it consists of white space only. *)
Fixpoint is_blank (s : string) : bool :=
  match s with
  | EmptyString => true
  | String c r => isWhiteSpace c && is_blank r
  end.

End JsString.

(* ================================================================== *)
(** ** JavaScript run-time notions: thrown values, arrays, objects *)
(* ================================================================== *)

Module Js.

(** A value that [throw] or a rejected promise delivers to a [catch]
    block.  [error instanceof Error] distinguishes the two cases. *)
Inductive Thrown : Type :=
| ErrorInstance (message : string)
| NonError (shown : string).

(** The outcome of evaluating a fallible expression ([await] included). *)
Inductive Outcome (A : Type) : Type :=
| Returned (a : A)
| Threw (e : Thrown).
Arguments Returned {A} a.
Arguments Threw {A} e.

Definition bind {A B : Type} (m : Outcome A) (k : A -> Outcome B) : Outcome B :=
  match m with
  | Returned a => k a
  | Threw e => Threw e
  end.

(** [e instanceof Error ? e.message : fallback]. *)
Definition message_or (fallback : string) (e : Thrown) : string :=
  match e with
  | ErrorInstance message => message
  | NonError _ => fallback
  end.

Section ArraySort.
Variable A : Type.
(** A comparator as [Array.prototype.sort] takes it: a negative number
    puts its first argument first, a positive one its second. *)
Variable compareFn : A -> A -> Z.

(** [x] came before every element of the sorted [l] in the input, so it
    passes only the elements that must precede it. *)
Fixpoint insert (x : A) (l : list A) : list A :=
  match l with
  | [] => [x]
  | y :: l' => if (0 <? compareFn x y)%Z then y :: insert x l' else x :: l
  end.

(** [array.sort(compareFn)].  The sort is stable since ES2019; with a
    comparator that is a total preorder a stable sort has one result,
    which insertion computes. *)
Definition Array_sort (l : list A) : list A := fold_right insert [] l.
End ArraySort.
Arguments insert {A} compareFn x l.
Arguments Array_sort {A} compareFn l.

(** [array.slice(0, n)]. *)
Definition slice0 {A : Type} (n : nat) (l : list A) : list A := firstn n l.

(** A plain object used as [Record<string, number>]: its own properties
    in creation order.  A key occurs once. *)
Definition NumberRecord : Type := list (string * Z).

Definition is_digit (c : ascii) : bool :=
  let n := nat_of_ascii c in ((48 <=? n) && (n <=? 57))%nat.

Fixpoint digits_value (acc : N) (s : string) : option N :=
  match s with
  | EmptyString => Some acc
  | String c r =>
      if is_digit c
      then digits_value (acc * 10 + N.of_nat (nat_of_ascii c - 48))%N r
      else None
  end.

(** The array index a property key denotes, if any: a canonical numeric
    string (no sign, no leading zero) of value at most 2^32 - 2. *)
Definition array_index (key : string) : option N :=
  match key with
  | EmptyString => None
  | String c r =>
      if (Ascii.eqb c "0" && negb (String.eqb r EmptyString))%bool then None
      else match digits_value 0%N key with
           | Some n => if (n <=? 4294967294)%N then Some n else None
           | None => None
           end
  end.

Definition is_index_key (p : string * Z) : bool :=
  match array_index (fst p) with Some _ => true | None => false end.

Definition index_order (p q : string * Z) : Z :=
  match array_index (fst p), array_index (fst q) with
  | Some i, Some j => (Z.of_N i - Z.of_N j)%Z
  | _, _ => 0%Z
  end.

(** [Object.entries(o)], in the order of OrdinaryOwnPropertyKeys: the
    keys that are array indices in ascending numeric order, then the
    other string keys in creation order. *)
Definition Object_entries (o : NumberRecord) : list (string * Z) :=
  Array_sort index_order (filter is_index_key o)
  ++ filter (fun p => negb (is_index_key p)) o.

End Js.

Notation "x <- m ;; k" := (Js.bind m (fun x => k))
  (at level 61, m at next level, right associativity).

(* ================================================================== *)
(** ** Order of the entries of a list *)
(* ================================================================== *)

Module Order.

(** [before l x y]: an occurrence of [x] in [l] has an occurrence of [y]
    somewhere behind it. *)
Inductive before {A : Type} : list A -> A -> A -> Prop :=
| before_here (x y : A) (l : list A) : In y l -> before (x :: l) x y
| before_later (z x y : A) (l : list A) : before l x y -> before (z :: l) x y.

(** Entries of equal count stand in [l] in the order they have in
    [source]. *)
Definition ties_kept {C : Type} (source l : list (string * C)) : Prop :=
  (forall x y, before l x y -> snd x = snd y -> before source x y)
  /\ (forall x y, In x l -> In y l -> snd x = snd y ->
                  before source x y -> before l x y).

Section Counts.
Variable A : Type.
Variable count : A -> Z.

(** The entry has count [k]. *)
Definition has_count (k : Z) (a : A) : bool := (count a =? k)%Z.

(** The first entry has at least the count of the second. *)
Definition nonincreasing (a b : A) : Prop := (count b <= count a)%Z.
End Counts.
Arguments has_count {A} count k a.
Arguments nonincreasing {A} count a b.

End Order.

(* ================================================================== *)
(** ** [src/app/src/app/page.tsx] *)
(* ================================================================== *)

Module Page.
Import Js.

Record ChannelAnalysis : Type := {
  channelId : string;
  channelUrl : string;
  channelTitle : string;
  sampleTitles : list string;
  sampleDescriptions : list string;
  averageTitleLength : Q;
  topKeywords : list string;
  commonHashtags : list string;
  firstWordFrequency : NumberRecord
}.

Record SeoRecommendation : Type := {
  recommendedTitle : string;
  recommendedDescription : string;
  recommendedHashtags : list string;
  keywordHighlights : list string
}.

Record TargetVideoPreview : Type := {
  videoId : string;
  title : string;
  description : string;
  previewChannelTitle : option string
}.

Record ApiResponse : Type := {
  channelAnalyses : list ChannelAnalysis;
  aggregateKeywords : list string;
  aggregateHashtags : list string;
  aggregateFirstWords : list string;
  targetVideo : option TargetVideoPreview;
  recommendation : option SeoRecommendation;
  error : option string
}.

Definition defaultChannels : string :=
  JsString.join (String JsString.LF EmptyString)
    ["https://www.youtube.com/@Top5News4"; "https://www.youtube.com/@TazaHalaat"].

(** [(a, b) => b[1] - a[1]] *)
Definition byCountDescending (a b : string * Z) : Z := (snd b - snd a)%Z.

(** The entries [prettyFrequency] shows: sorted, then [slice(0, 6)]. *)
Definition prettyEntries (freq : NumberRecord) : list (string * Z) :=
  slice0 6 (Array_sort byCountDescending (Object_entries freq)).

Definition prettyEntry (e : string * Z) : string :=
  JsString.toUpperCase (fst e) ++ " (" ++ JsString.of_Z (snd e) ++ ")".

Definition prettyFrequency (freq : NumberRecord) : string :=
  match prettyEntries freq with
  | [] => "No pattern data yet."
  | entries => JsString.join ", " (map prettyEntry entries)
  end.

(** The five [useState] cells of [Home]; the cell [error] is [error_]
    here, [error] being the field of [ApiResponse]. *)
Record State : Type := {
  channelsInput : string;
  videoUrl : string;
  isLoading : bool;
  error_ : option string;
  data : option ApiResponse
}.

Definition initialState : State :=
  {| channelsInput := defaultChannels; videoUrl := EmptyString;
     isLoading := false; error_ := None; data := None |}.

Definition setIsLoading (b : bool) (st : State) : State :=
  {| channelsInput := channelsInput st; videoUrl := videoUrl st;
     isLoading := b; error_ := error_ st; data := data st |}.
Definition setError (e : option string) (st : State) : State :=
  {| channelsInput := channelsInput st; videoUrl := videoUrl st;
     isLoading := isLoading st; error_ := e; data := data st |}.
Definition setData (d : option ApiResponse) (st : State) : State :=
  {| channelsInput := channelsInput st; videoUrl := videoUrl st;
     isLoading := isLoading st; error_ := error_ st; data := d |}.

(** The [useMemo] value [channels]:
    [channelsInput.split("\n").map((line) => line.trim()).filter(Boolean)]. *)
Definition channels (channelsInput : string) : list string :=
  filter JsString.truthy (map JsString.trim (JsString.split_LF channelsInput)).

(** JSON as [JSON.stringify] writes the request body. *)
#[local] Unset Elimination Schemes.
Inductive Json : Type :=
| JString (s : string)
| JArray (items : list Json)
| JObject (members : list (string * Json)).
#[local] Set Elimination Schemes.

(** [JSON.stringify({ channels, targetVideoUrl })]: a member whose value
    is [undefined] is left out. *)
Definition stringify_body (channels : list string) (targetVideoUrl : option string)
  : Json :=
  JObject (("channels", JArray (map JString channels))
           :: match targetVideoUrl with
              | Some url => [("targetVideoUrl", JString url)]
              | None => []
              end).

(** [s || undefined] *)
Definition or_undefined (s : string) : option string :=
  if JsString.truthy s then Some s else None.

Record FetchRequest : Type := {
  url : string;
  method : string;
  headers : list (string * string);
  body : Json
}.

(** What the page reads of a [Response]: [response.ok] and the outcome of
    [await response.json()] under the cast [as ApiResponse].  A body that
    is no JSON, or one on which reading [json.error] throws, is a [Threw].
    The cast is not checked at run time: a body that is JSON but no object
    of the shape [ApiResponse] (a number, a string, an object without the
    lists) is outside this model. *)
Record Response : Type := {
  ok : bool;
  response_json : Outcome ApiResponse
}.

Definition error_truthy (j : ApiResponse) : bool :=
  match error j with Some s => JsString.truthy s | None => false end.

Section HandleAnalyze.
(** The network and the server behind [fetch]. *)
Variable fetch : FetchRequest -> Outcome Response.

Definition analyzeRequest (st : State) : FetchRequest :=
  {| url := "/api/analyze";
     method := "POST";
     headers := [("Content-Type", "application/json")];
     body := stringify_body (channels (channelsInput st))
               (or_undefined (JsString.trim (videoUrl st))) |}.

(** The [try] block up to [setData]: the value handed to [setData], or
    what the block throws. *)
Definition tryBlock (st : State) : Outcome ApiResponse :=
  response <- fetch (analyzeRequest st) ;;
  json <- response_json response ;;
  if (negb (ok response) || error_truthy json)%bool
  then Threw (ErrorInstance (JsString.or_else (error json) "Failed to analyze channels."))
  else Returned json.

(** [handleAnalyze], run to completion from state [st]: the state it
    leaves and the requests it sent. *)
Definition handleAnalyze (st : State) : State * list FetchRequest :=
  match channels (channelsInput st) with
  | [] => (setError (Some "Add at least one channel to analyze.") st, [])
  | _ :: _ =>
      let cleared := setData None (setError None (setIsLoading true st)) in
      let settled :=
        match tryBlock st with
        | Returned json => setData (Some json) cleared
        | Threw requestError =>
            setError (Some (message_or "Unexpected error occurred." requestError))
              cleared
        end in
      (setIsLoading false settled, [analyzeRequest st])
  end.
End HandleAnalyze.

(** *** Notions the properties of the page are stated with *)

(** The lines of the textarea that are not blank. *)
Definition nonBlankLines (input : string) : list string :=
  filter (fun line => negb (JsString.is_blank line)) (JsString.split_LF input).

(** The member list of the body for a list of channels and a link. *)
Definition inboundShape (chans : list string) (link : string) : Json :=
  JObject (("channels", JArray (map JString chans))
           :: if String.eqb link EmptyString then []
              else [("targetVideoUrl", JString link)]).

(** The state after a run of [handleAnalyze] shows at most one of an
    error and a result. *)
Definition exclusive (st : State) : Prop := error_ st = None \/ data st = None.

(** [setChannelsInput], the [onChange] handler of the textarea. *)
Definition setChannelsInput (s : string) (st : State) : State :=
  {| channelsInput := s; videoUrl := videoUrl st;
     isLoading := isLoading st; error_ := error_ st; data := data st |}.

Definition emptyAnalysis : ApiResponse :=
  {| channelAnalyses := []; aggregateKeywords := []; aggregateHashtags := [];
     aggregateFirstWords := []; targetVideo := None; recommendation := None;
     error := None |}.

(** A server that answers every request with 200 and an analysis. *)
Definition fetchOk (_ : FetchRequest) : Outcome Response :=
  Returned {| ok := true; response_json := Returned emptyAnalysis |}.

(** A successful run, then the textarea is cleared, then a second run. *)
Definition afterSecondRun : State :=
  let first := fst (handleAnalyze fetchOk initialState) in
  fst (handleAnalyze fetchOk (setChannelsInput EmptyString first)).

(** One entry shows at least the count of the other. *)
Definition count_ge (a b : string * Z) : Prop := (snd b <= snd a)%Z.

(** The opening words of the titles "Top 5 ..." and "5 ...", each seen
    twice, in first-seen order. *)
Definition openingCounts : NumberRecord := [("top", 2%Z); ("5", 2%Z)].

End Page.

(* ================================================================== *)
(** ** The route handler of [/api/analyze] *)
(* ================================================================== *)

Module Route.
Import Js.

Section Handler.
(** What [request.json()] yields and what the analysis returns. *)
Variables Payload Result : Type.

(** [analyzeChannelsAndSuggest] of [@/lib/seo], awaited. *)
Variable analyzeChannelsAndSuggest : Payload -> Outcome Result.

(** What the handler reads of a [Request]: the outcome of
    [await request.json()]. *)
Record Request : Type := { request_json : Outcome Payload }.

(** The two JSON bodies the handler writes: [result] as it is, or the
    object literal [{ error: message }]. *)
Inductive Body : Type :=
| ResultBody (result : Result)
| ErrorBody (message : string).

Record NextResponse : Type := { status : Z; body : Body }.

(** [NextResponse.json(body)] answers 200 unless [init] sets a status. *)
Definition NextResponse_json (b : Body) (init_status : option Z) : NextResponse :=
  {| status := match init_status with Some s => s | None => 200%Z end;
     body := b |}.

(** [POST], for results that [NextResponse.json] can serialise;
    [RouteSerialized.POST] below is the handler without that assumption. *)
Definition POST (request : Request) : NextResponse :=
  match (payload <- request_json request ;;
         result <- analyzeChannelsAndSuggest payload ;;
         Returned (NextResponse_json (ResultBody result) None)) with
  | Returned response => response
  | Threw error =>
      let message := message_or "Unexpected error" error in
      NextResponse_json (ErrorBody message) (Some 400%Z)
  end.

(** What a request makes the [try] block throw, if anything. *)
Definition throws (request : Request) (e : Thrown) : Prop :=
  request_json request = Threw e
  \/ exists payload,
       request_json request = Returned payload /\ analyzeChannelsAndSuggest payload = Threw e.
End Handler.
Arguments request_json {Payload} _.
Arguments Build_Request {Payload} _.
Arguments ResultBody {Result} result.
Arguments ErrorBody {Result} message.
Arguments status {Result} _.
Arguments body {Result} _.
Arguments Build_NextResponse {Result} _ _.
Arguments NextResponse_json {Result} b init_status.
Arguments POST {Payload Result} analyzeChannelsAndSuggest request.
Arguments throws {Payload Result} analyzeChannelsAndSuggest request e.

End Route.

(* ================================================================== *)
(** ** The aggregator of [@/lib/seo], modelled from the specification *)
(* ================================================================== *)

Module Seo.
Import Js.

(** Modelled from the spec: the frequency mappings of the missing
    [@/lib/seo]: each token once ("no duplicate keys"), in first-seen
    order. *)
Definition Frequency : Type := list (string * nat).

(** Modelled from the spec: a "raw text pair (title, description)" of the
    data model; the types of [@/lib/seo] are missing. *)
Record VideoText : Type := { videoTitle : string; videoDescription : string }.

(** Modelled from the spec: ChannelSample of the data model, "a channel
    identifier/URL/title plus a set of raw text pairs". *)
Record ChannelSample : Type := {
  sampleChannelId : string;
  sampleChannelUrl : string;
  sampleChannelTitle : string;
  videos : list VideoText
}.

(** Modelled from the spec: TargetVideo of the data model, "identifier,
    title, description, channel title". *)
Record TargetVideo : Type := {
  videoId : string;
  title : string;
  description : string;
  targetChannelTitle : option string
}.

(** Modelled from the spec: ChannelAnalysis of the data model, the
    summary of one sample inside the missing [@/lib/seo]; the ranked lists
    keep their counts, which the outbound JSON drops. *)
Record ChannelAnalysis : Type := {
  channelId : string;
  channelUrl : string;
  channelTitle : string;
  sampleTitles : list string;
  sampleDescriptions : list string;
  averageTitleLength : Q;
  topKeywords : Frequency;
  commonHashtags : Frequency;
  firstWordFrequency : Frequency
}.

(** Modelled from the spec: AggregateSummary of the data model, "merged
    ranked keyword list, merged hashtag list, merged opening-word list". *)
Record AggregateSummary : Type := {
  keywords : Frequency;
  hashtags : Frequency;
  firstWords : Frequency
}.

(** Modelled from the spec: SeoRecommendation of the data model. *)
Record SeoRecommendation : Type := {
  recommendedTitle : string;
  recommendedDescription : string;
  recommendedHashtags : list string;
  keywordHighlights : list string
}.

(** Modelled from the spec: the outbound result of section 6, which the
    missing [@/lib/seo] returns to the route handler. *)
Record AnalysisResult : Type := {
  channelAnalyses : list ChannelAnalysis;
  aggregateKeywords : list string;
  aggregateHashtags : list string;
  aggregateFirstWords : list string;
  targetVideo : option TargetVideo;
  recommendation : option SeoRecommendation
}.

(** Modelled from the spec: the inbound request of section 6, the
    payload the missing [@/lib/seo] receives. *)
Record Inbound : Type := {
  channels : list string;
  targetVideoUrl : option string
}.

(** Modelled from the spec: the error taxonomy of section 7. *)
Inductive AnalysisError : Type :=
| InvalidInput
| ResolutionFailure (cause : Thrown).

(** *** Tokens *)

(** Modelled from the spec: the tokenizer of [@/lib/seo] is missing;
    "delimiters: whitespace, punctuation", with [#] kept because hashtags
    are "tokens beginning with #". *)
Definition is_punctuation (c : ascii) : bool :=
  let n := nat_of_ascii c in
  (((33 <=? n) && (n <=? 47)) || ((58 <=? n) && (n <=? 64))
   || ((91 <=? n) && (n <=? 96)) || ((123 <=? n) && (n <=? 126)))%nat
  && negb (Ascii.eqb c "#").

(** Modelled from the spec: "delimiters: whitespace, punctuation". *)
Definition is_delimiter (c : ascii) : bool :=
  JsString.isWhiteSpace c || is_punctuation c.

(** Modelled from the spec: the maximal runs between delimiters,
    lowercased, of the missing tokenizer; runs may be empty. *)
Fixpoint runs (s : string) : list string :=
  match s with
  | EmptyString => [EmptyString]
  | String c r =>
      if is_delimiter c then EmptyString :: runs r
      else match runs r with
           | run :: rest => String (JsString.lower_char c) run :: rest
           | [] => [String (JsString.lower_char c) EmptyString]
           end
  end.

(** Modelled from the spec: "tokenize each title and description into
    lowercase words"; the tokenizer of [@/lib/seo] is missing. *)
Definition tokenize (s : string) : list string :=
  filter JsString.truthy (runs s).

(** Modelled from the spec: hashtags are "tokens beginning with #". *)
Definition is_hashtag (token : string) : bool :=
  match token with
  | String c _ => Ascii.eqb c "#"
  | EmptyString => false
  end.

(** *** Frequency mappings *)

(** Modelled from the spec: counting into a frequency mapping of the
    missing [@/lib/seo].  Add [n] occurrences of [token]; a new token goes
    to the end, which keeps the mapping in first-seen order. *)
Fixpoint add (token : string) (n : nat) (m : Frequency) : Frequency :=
  match m with
  | [] => [(token, n)]
  | (k, c) :: m' =>
      if String.eqb k token then (k, c + n) :: m' else (k, c) :: add token n m'
  end.

(** Modelled from the spec: "compute keyword frequency by counting". *)
Definition countTokens (tokens : list string) : Frequency :=
  fold_left (fun m token => add token 1 m) tokens [].

(** The count of a token in a mapping or ranked list; 0 when absent. *)
Fixpoint count_of (token : string) (m : Frequency) : nat :=
  match m with
  | [] => 0
  | (k, c) :: m' => if String.eqb k token then c else count_of token m'
  end.

(** Modelled from the spec: the comparator of "descending by count". *)
Definition byCountDescending (a b : string * nat) : Z :=
  (Z.of_nat (snd b) - Z.of_nat (snd a))%Z.


Section Aggregator.
(** The presentation choices the specification leaves open. *)
Variable stopwords : list string.
Variable topN : nat.
Variable sampleLimit : nat.
Variable synthesize :
  AggregateSummary -> list ChannelAnalysis -> TargetVideo -> SeoRecommendation.

(** The external collaborators that retrieve YouTube data. *)
Variable fetchChannel : string -> Outcome ChannelSample.
Variable fetchVideo : string -> Outcome TargetVideo.

(** The text of an [InvalidInput] failure. *)
Variable invalidInputMessage : string.

(** Modelled from the spec: "non-stopword tokens"; the stopword list of
    the missing [@/lib/seo] is a parameter. *)
Definition is_stopword (token : string) : bool :=
  existsb (String.eqb token) stopwords.

(** Modelled from the spec: operation "ranking" of the missing
    [@/lib/seo]: "sort ... descending by count, breaking ties by
    first-seen order; truncate to a fixed top-N". *)
Definition rank (m : Frequency) : Frequency :=
  firstn topN (Array_sort byCountDescending m).

(** Modelled from the spec: "merge the per-channel ranked ... lists
    across all channels by summing counts for identical tokens";
    [@/lib/seo] is missing. *)
Definition merge (lists : list Frequency) : Frequency :=
  fold_left (fun m entry => add (fst entry) (snd entry) m) (List.concat lists) [].

(** Modelled from the spec: the titles and the descriptions of a sample. *)
Definition titles (s : ChannelSample) : list string := map videoTitle (videos s).
Definition descriptions (s : ChannelSample) : list string :=
  map videoDescription (videos s).

(** Modelled from the spec: the tokens "across all titles+descriptions". *)
Definition tokensOf (s : ChannelSample) : list string :=
  flat_map tokenize (titles s ++ descriptions s).

(** Modelled from the spec: "the first token of each title", for the
    titles that have one. *)
Definition openingWords (s : ChannelSample) : list string :=
  flat_map (fun t => firstn 1 (tokenize t)) (titles s).

(** Modelled from the spec: "average title length (character count,
    mean over all titles in the channel, 0 if no titles)"; the
    computation of the missing [@/lib/seo] is taken to be a running
    total divided by the number of titles. *)
Definition averageLength (ts : list string) : Q :=
  match ts with
  | [] => 0%Q
  | _ :: _ =>
      let total := fold_left (fun sum t => (sum + Z.of_nat (String.length t))%Z) ts 0%Z in
      (inject_Z total / inject_Z (Z.of_nat (List.length ts)))%Q
  end.

(** Modelled from the spec: operation "per-channel analysis" of the
    missing [@/lib/seo]. *)
Definition analyzeChannel (s : ChannelSample) : ChannelAnalysis :=
  {| channelId := sampleChannelId s;
     channelUrl := sampleChannelUrl s;
     channelTitle := sampleChannelTitle s;
     sampleTitles := firstn sampleLimit (titles s);
     sampleDescriptions := firstn sampleLimit (descriptions s);
     averageTitleLength := averageLength (titles s);
     topKeywords :=
       rank (countTokens (filter (fun t => negb (is_stopword t)) (tokensOf s)));
     commonHashtags := rank (countTokens (filter is_hashtag (tokensOf s)));
     firstWordFrequency := countTokens (openingWords s) |}.

(** Modelled from the spec: operation "aggregation" of the missing
    [@/lib/seo]: merge the three per-channel lists a ChannelAnalysis holds
    (its ranked keyword list, its ranked hashtag list, its opening-word
    mapping), "then re-rank using the same rule, truncated to top-N". *)
Definition summarize (analyses : list ChannelAnalysis) : AggregateSummary :=
  {| keywords := rank (merge (map topKeywords analyses));
     hashtags := rank (merge (map commonHashtags analyses));
     firstWords := rank (merge (map firstWordFrequency analyses)) |}.

(** Modelled from the spec: a sample "yields parseable text" when it has
    a token at all. *)
Definition parseable (s : ChannelSample) : bool :=
  match tokensOf s with [] => false | _ :: _ => true end.

(** Modelled from the spec: the TextStatsAggregator of section 4.1 on
    samples that are already resolved; [@/lib/seo] is missing.  It
    fails with [InvalidInput] "when no channel samples are supplied or
    none yield parseable text", and synthesizes a recommendation "only
    if TargetVideo present". *)
Definition aggregate (samples : list ChannelSample) (target : option TargetVideo)
  : AnalysisError + AnalysisResult :=
  if existsb parseable samples then
    let analyses := map analyzeChannel samples in
    let summary := summarize analyses in
    inr {| channelAnalyses := analyses;
           aggregateKeywords := map fst (keywords summary);
           aggregateHashtags := map fst (hashtags summary);
           aggregateFirstWords := map fst (firstWords summary);
           targetVideo := target;
           recommendation := option_map (synthesize summary analyses) target |}
  else inl InvalidInput.

(** Modelled from the spec: every failure reaches the caller as one
    thrown [Error] with a descriptive message; a resolution failure is
    "surfaced unchanged". *)
Definition raise (e : AnalysisError) : Thrown :=
  match e with
  | InvalidInput => ErrorInstance invalidInputMessage
  | ResolutionFailure cause => cause
  end.

(** Modelled from the spec: the collaborator resolves each channel
    reference in order; the first failure ends the analysis. *)
Fixpoint resolveChannels (refs : list string) : Outcome (list ChannelSample) :=
  match refs with
  | [] => Returned []
  | ref :: rest =>
      sample <- fetchChannel ref ;;
      samples <- resolveChannels rest ;;
      Returned (sample :: samples)
  end.

(** Modelled from the spec: the optional target video link is resolved
    when it is supplied. *)
Definition resolveTarget (link : option string) : Outcome (option TargetVideo) :=
  match link with
  | None => Returned None
  | Some url => video <- fetchVideo url ;; Returned (Some video)
  end.

(** Modelled from the spec: [analyzeChannelsAndSuggest] of the missing
    [@/lib/seo], as the route handler calls it: the collaborators
    resolve the inbound references, then the aggregator runs. *)
Definition analyzeChannelsAndSuggest (payload : Inbound) : Outcome AnalysisResult :=
  samples <- resolveChannels (channels payload) ;;
  target <- resolveTarget (targetVideoUrl payload) ;;
  match aggregate samples target with
  | inr result => Returned result
  | inl e => Threw (raise e)
  end.
End Aggregator.

(** *** Notions the properties of the aggregator are stated with *)

(** The tokens of a list in the order of their first occurrence. *)
Definition firstSeen (tokens : list string) : list string :=
  fold_left
    (fun seen t => if existsb (String.eqb t) seen then seen else seen ++ [t])
    tokens [].

(** What one entry of a list contributes to the count of [token]. *)
Definition weight (token : string) (entry : string * nat) : nat :=
  if String.eqb (fst entry) token then snd entry else 0.

Definition addEntry (m : Frequency) (entry : string * nat) : Frequency :=
  add (fst entry) (snd entry) m.

Definition unique_keys (m : Frequency) : Prop := NoDup (map fst m).

(** One entry has at least the count of the other. *)
Definition count_ge (a b : string * nat) : Prop := snd b <= snd a.

(** [ranked source l]: [l] lists entries of [source], each token once,
    by non-increasing count, and two entries of one count stand in [l]
    in the order they have in [source]. *)
Definition ranked (source l : Frequency) : Prop :=
  unique_keys l
  /\ StronglySorted count_ge l
  /\ Order.ties_kept source l
  /\ incl l source.

Definition countZ (a : string * nat) : Z := Z.of_nat (snd a).

(** The tokens of per-channel lists in the order in which they are first
    met, channel after channel. *)
Definition tokensMet (perChannel : list Frequency) : list string :=
  firstSeen (map fst (List.concat perChannel)).


End Seo.

(* ================================================================== *)
(** ** Sample data for concrete runs *)
(* ================================================================== *)

Module Sample.
Import Js Seo.

(** The channel of the examples of the specification. *)
Definition newsChannel : ChannelSample :=
  {| sampleChannelId := "UC1"; sampleChannelUrl := "https://www.youtube.com/@Top5News4";
     sampleChannelTitle := "Top 5 News";
     videos := [ {| videoTitle := "Top 5 News Today"; videoDescription := "#news #top5" |};
                 {| videoTitle := "Top 5 Shocking Facts"; videoDescription := "#news" |} ] |}.

Definition stopwords : list string := ["the"; "a"; "of"; "and"].
Definition topN : nat := 10.
Definition sampleLimit : nat := 10.

Definition synthesize (summary : AggregateSummary) (analyses : list ChannelAnalysis)
    (target : TargetVideo) : SeoRecommendation :=
  {| recommendedTitle :=
       JsString.join " " (map fst (firstn 3 (keywords summary)) ++ [title target]);
     recommendedDescription := description target;
     recommendedHashtags := map fst (firstn 5 (hashtags summary));
     keywordHighlights := map fst (keywords summary) |}.

Definition dailyVideo : TargetVideo :=
  {| videoId := "dQw4w9WgXcQ"; title := "Daily briefing";
     description := "Headlines of the day"; targetChannelTitle := None |}.

Definition fetchChannel (ref : string) : Outcome ChannelSample :=
  if String.eqb ref "@Top5News4" then Returned newsChannel
  else Threw (ErrorInstance "Channel not found").

Definition fetchVideo (url : string) : Outcome TargetVideo :=
  if String.eqb url "https://www.youtube.com/watch?v=dQw4w9WgXcQ"
  then Returned dailyVideo
  else Threw (ErrorInstance "Video not found").

Definition invalidInputMessage : string := "No channel text to analyze.".

Definition analyze : Inbound -> Outcome AnalysisResult :=
  analyzeChannelsAndSuggest stopwords topN sampleLimit synthesize
    fetchChannel fetchVideo invalidInputMessage.

Definition withTarget : Inbound :=
  {| channels := ["@Top5News4"];
     targetVideoUrl := Some "https://www.youtube.com/watch?v=dQw4w9WgXcQ" |}.

Definition noChannels : Inbound := {| channels := []; targetVideoUrl := None |}.

End Sample.

(* ================================================================== *)
(** ** [src/app/src/app/page.tsx]: what [Home] renders from its state *)
(* ================================================================== *)

Module PageView.
Import Js Page.

(** The text of the placeholder of [formatList], the em dash U+2014.  It
    lies outside the 8-bit range and is held as its three UTF-8 bytes. *)
Definition emDash : string :=
  String (ascii_of_nat 226) (String (ascii_of_nat 128)
    (String (ascii_of_nat 148) EmptyString)).

(** [(items) => (items.length ? items.slice(0, 10).join(", ") : emDash)] *)
Definition formatList (items : list string) : string :=
  match items with
  | [] => emDash
  | _ :: _ => JsString.join ", " (slice0 10 items)
  end.

(** [{error ? <p ...>{error}</p> : null}]: the text of the error
    paragraph, if it is rendered.  The empty string is falsy. *)
Definition errorBanner (st : State) : option string :=
  match error_ st with
  | Some message => if JsString.truthy message then Some message else None
  | None => None
  end.

(** [{data ? <section ...> ... </section> : null}]: the response whose
    results section is rendered, if any. *)
Definition resultsSection (st : State) : option ApiResponse := data st.


(** A string has a line feed somewhere. *)
Fixpoint has_line_feed (s : string) : bool :=
  match s with
  | EmptyString => false
  | String c r => Ascii.eqb c JsString.LF || has_line_feed r
  end.

(** The textarea content that lists the given lines, one per line. *)
Definition linesText (lines : list string) : string :=
  JsString.join (String JsString.LF EmptyString) lines.

(** [text.split(", ")]: the pieces between the occurrences of the
    separator of [formatList], found from left to right. *)
Fixpoint split_comma_space (s : string) : list string :=
  match s with
  | EmptyString => [EmptyString]
  | String c r =>
      let kept :=
        match split_comma_space r with
        | piece :: pieces => String c piece :: pieces
        | [] => [String c EmptyString]
        end in
      if Ascii.eqb c ","
      then match r with
           | String d r' =>
               if Ascii.eqb d " " then EmptyString :: split_comma_space r' else kept
           | EmptyString => kept
           end
      else kept
  end.

(** A string has a comma somewhere. *)
Fixpoint has_comma (s : string) : bool :=
  match s with
  | EmptyString => false
  | String c r => Ascii.eqb c "," || has_comma r
  end.

End PageView.

(* ================================================================== *)
(** ** The route handler for results that may fail to serialise *)
(* ================================================================== *)

Module RouteSerialized.
Import Js Route.

Section Handler.
Variables Payload Result : Type.
Variable analyzeChannelsAndSuggest : Payload -> Outcome Result.

(** [JSON.stringify(result)] inside [NextResponse.json(result)]: the JSON
    text, or what it throws (on a BigInt or a cyclic object). *)
Variable stringify : Result -> Outcome string.

(** [POST] of the route handler with the call [NextResponse.json(result)]
    inside the [try] block, as it is written: a throw while the result is
    serialised is caught like any other.  [Route.POST] is this handler
    for results that always serialise. *)
Definition POST (request : Request Payload) : NextResponse Result :=
  match (payload <- request_json request ;;
         result <- analyzeChannelsAndSuggest payload ;;
         _ <- stringify result ;;
         Returned (NextResponse_json (ResultBody result) None)) with
  | Returned response => response
  | Threw error =>
      let message := message_or "Unexpected error" error in
      NextResponse_json (ErrorBody message) (Some 400%Z)
  end.

(** What a request makes the [try] block throw, if anything. *)
Definition throws (request : Request Payload) (e : Thrown) : Prop :=
  Route.throws analyzeChannelsAndSuggest request e
  \/ exists payload result,
       request_json request = Returned payload
       /\ analyzeChannelsAndSuggest payload = Returned result
       /\ stringify result = Threw e.
End Handler.
Arguments POST {Payload Result} analyzeChannelsAndSuggest stringify request.
Arguments throws {Payload Result} analyzeChannelsAndSuggest stringify request e.

End RouteSerialized.

(* ================================================================== *)
(** ** The page and the route handler over HTTP *)
(* ================================================================== *)

Module Wire.
Import Js.

(** [response.ok] of the Fetch API: the status is in the range 200-299. *)
Definition response_ok (status : Z) : bool := ((200 <=? status) && (status <=? 299))%Z.

(** [delivers r response]: the page's [fetch] resolved with the answer [r]
    of the route handler: [response.ok] reflects the status of [r], and
    when the body of [r] is the object [{ error: message }],
    [response.json()] yields an object whose [error] is that message. *)
Definition delivers {Result : Type} (r : Route.NextResponse Result)
    (response : Page.Response) : Prop :=
  Page.ok response = response_ok (Route.status r)
  /\ match Route.body r with
     | Route.ErrorBody message =>
         exists j, Page.response_json response = Returned j
                   /\ Page.error j = Some message
     | Route.ResultBody _ => True
     end.

End Wire.

(* ================================================================== *)
(** ** Sample servers and records for concrete runs of the page *)
(* ================================================================== *)

Module PageSample.
Import Js Page.

(** The object [{ error: message }] as the page reads it. *)
Definition errorObject (message : string) : ApiResponse :=
  {| channelAnalyses := []; aggregateKeywords := []; aggregateHashtags := [];
     aggregateFirstWords := []; targetVideo := None; recommendation := None;
     error := Some message |}.

(** A server that answers every request with the given [ok] and body. *)
Definition fetchAnswers (isOk : bool) (j : ApiResponse) (_ : FetchRequest)
  : Outcome Response :=
  Returned {| ok := isOk; response_json := Returned j |}.

(** A network on which every request fails with the given value. *)
Definition fetchThrows (thrown : Thrown) (_ : FetchRequest) : Outcome Response :=
  Threw thrown.

(** The initial state after an earlier failed run. *)
Definition afterFailure : State :=
  {| channelsInput := defaultChannels; videoUrl := EmptyString;
     isLoading := false; error_ := Some "Failed to fetch"; data := None |}.

(** Eleven keywords. *)
Definition elevenKeywords : list string :=
  ["news"; "world"; "sports"; "weather"; "markets"; "science"; "health";
   "travel"; "food"; "music"; "cricket"].

End PageSample.

(* ================================================================== *)
(** * Properties *)
(* ================================================================== *)

(** ** Trimming and line splitting *)

Module JsStringFacts.
Import JsString.

Lemma trimStart_first (s : string) (c : ascii) :
  first_char (trimStart s) = Some c -> isWhiteSpace c = false.
Proof.
  induction s as [|d r IH]; simpl; [discriminate|].
  destruct (isWhiteSpace d) eqn:E; [exact IH|].
  simpl. intros [= <-]. exact E.
Qed.

Lemma trimEnd_first (s : string) :
  trimEnd s <> EmptyString -> first_char (trimEnd s) = first_char s.
Proof.
  destruct s as [|c r]; simpl; [congruence|].
  destruct (trimEnd r); [destruct (isWhiteSpace c)|]; simpl; congruence.
Qed.

Lemma trimEnd_last (s : string) (c : ascii) :
  last_char (trimEnd s) = Some c -> isWhiteSpace c = false.
Proof.
  induction s as [|d r IH]; simpl; [discriminate|].
  destruct (trimEnd r) as [|e r'] eqn:E.
  - destruct (isWhiteSpace d) eqn:W; simpl; [discriminate|].
    intros [= <-]. exact W.
  - intros H. apply IH. exact H.
Qed.

Lemma trimStart_fixed (s : string) (c : ascii) :
  first_char s = Some c -> isWhiteSpace c = false -> trimStart s = s.
Proof.
  destruct s as [|d r]; simpl; [discriminate|].
  intros [= ->] ->. reflexivity.
Qed.

Lemma trimEnd_idempotent (s : string) : trimEnd (trimEnd s) = trimEnd s.
Proof.
  induction s as [|d r IH]; simpl; [reflexivity|].
  destruct (trimEnd r) as [|e r'] eqn:E.
  - destruct (isWhiteSpace d) eqn:W; simpl; [reflexivity|].
    rewrite W. reflexivity.
  - change (trimEnd (String d (String e r'))) with
      (match trimEnd (String e r') with
       | EmptyString => if isWhiteSpace d then EmptyString else String d EmptyString
       | String d0 r0 => String d (String d0 r0)
       end).
    rewrite IH. reflexivity.
Qed.

(** A trimmed string that is not empty starts and ends with a code unit
    that is not white space, and trimming it again changes nothing. *)
Lemma trim_shape (s : string) :
  trim s <> EmptyString ->
  (exists c, first_char (trim s) = Some c /\ isWhiteSpace c = false) /\
  (exists c, last_char (trim s) = Some c /\ isWhiteSpace c = false) /\
  trim (trim s) = trim s.
Proof.
  unfold trim. intros Hne.
  pose proof (trimEnd_first (trimStart s) Hne) as Hf.
  assert (H1 : exists c, first_char (trimEnd (trimStart s)) = Some c
                         /\ isWhiteSpace c = false).
  { destruct (first_char (trimEnd (trimStart s))) as [c|] eqn:E.
    - exists c. split; [reflexivity|].
      apply (trimStart_first s). congruence.
    - destruct (trimEnd (trimStart s)); [congruence|discriminate]. }
  split; [exact H1|]. split.
  - destruct (last_char (trimEnd (trimStart s))) as [c|] eqn:E.
    + exists c. split; [reflexivity|]. exact (trimEnd_last _ _ E).
    + exfalso. clear - E Hne.
      remember (trimEnd (trimStart s)) as t. clear Heqt.
      induction t as [|d r IH]; [congruence|].
      destruct r; [discriminate|]. apply IH; [discriminate|exact E].
  - destruct H1 as (c & Hc & Hw).
    rewrite (trimStart_fixed _ _ Hc Hw). apply trimEnd_idempotent.
Qed.

Lemma trimEnd_nonempty (c : ascii) (r : string) :
  isWhiteSpace c = false -> trimEnd (String c r) <> EmptyString.
Proof.
  intros W. simpl. destruct (trimEnd r); [rewrite W|]; discriminate.
Qed.

Lemma truthy_trim (s : string) : truthy (trim s) = negb (is_blank s).
Proof.
  unfold trim. induction s as [|c r IH]; [reflexivity|].
  simpl trimStart. simpl is_blank.
  destruct (isWhiteSpace c) eqn:W; [exact IH|].
  pose proof (trimEnd_nonempty c r W) as Hne.
  destruct (trimEnd (String c r)); [congruence|reflexivity].
Qed.

Lemma filter_map_swap {A B : Type} (f : A -> B) (p : B -> bool) (l : list A) :
  filter p (map f l) = map f (filter (fun x => p (f x)) l).
Proof.
  induction l as [|x l IH]; [reflexivity|].
  simpl. destruct (p (f x)); simpl; rewrite IH; reflexivity.
Qed.

End JsStringFacts.

(** ** The page: what [handleAnalyze] sends and leaves behind *)

Module PageFacts.
Import Js JsString JsStringFacts Page.

Lemma channels_nonBlankLines (input : string) :
  channels input = map trim (nonBlankLines input).
Proof.
  unfold channels, nonBlankLines.
  rewrite filter_map_swap. f_equal.
  apply filter_ext. intros line. apply truthy_trim.
Qed.

Lemma truthy_spec (s : string) : truthy s = negb (String.eqb s EmptyString).
Proof. destruct s; reflexivity. Qed.

(** C9: every element of the [channels] array is the trimmed form of a
    line of the textarea, is not the empty string, begins and ends with a
    code unit that is not white space, and is left unchanged by a second
    [trim]. *)
Theorem channels_nonempty_trimmed (input c : string) :
  In c (channels input) ->
  c <> EmptyString
  /\ (exists line, In line (split_LF input) /\ c = trim line)
  /\ (exists a, first_char c = Some a /\ isWhiteSpace a = false)
  /\ (exists z, last_char c = Some z /\ isWhiteSpace z = false)
  /\ trim c = c.
Proof.
  unfold channels. intros Hin.
  apply filter_In in Hin. destruct Hin as [Hmap Htruthy].
  apply in_map_iff in Hmap. destruct Hmap as (line & <- & Hline).
  assert (Hne : trim line <> EmptyString).
  { intros E. rewrite E in Htruthy. discriminate. }
  destruct (trim_shape line Hne) as (Hfirst & Hlast & Hfix).
  repeat split; try assumption.
  exists line. split; [assumption|reflexivity].
Qed.

Lemma channels_nonempty_trimmed_witness :
  let input := ("  @Top5News4 " ++ String LF " " ++ String LF "x")%string in
  In "@Top5News4" (channels input)
  /\ "@Top5News4" <> EmptyString
  /\ trim "@Top5News4" = "@Top5News4".
Proof.
  assert (Hin : In "@Top5News4"
                  (channels ("  @Top5News4 " ++ String LF " " ++ String LF "x")%string)).
  { vm_compute. left. reflexivity. }
  split; [exact Hin|].
  destruct (channels_nonempty_trimmed _ _ Hin) as (Hne & _ & _ & _ & Hfix).
  split; [exact Hne|exact Hfix].
Defined.

(** C8: [handleAnalyze] sends no request when the textarea has no
    non-blank line, and otherwise one POST to [/api/analyze] whose body
    has the member [channels], the trimmed non-blank lines in order, and
    the member [targetVideoUrl] exactly when the trimmed video link is
    not empty; an empty link is left out of the body. *)
Theorem handleAnalyze_request_body (fetch : FetchRequest -> Outcome Response)
    (st : State) :
  let chans := map trim (nonBlankLines (channelsInput st)) in
  let link := trim (videoUrl st) in
  snd (handleAnalyze fetch st) =
    match chans with
    | [] => []
    | _ :: _ =>
        [ {| url := "/api/analyze";
             method := "POST";
             headers := [("Content-Type", "application/json")];
             body := inboundShape chans link |} ]
    end.
Proof.
  intros chans link. subst chans link.
  unfold handleAnalyze, analyzeRequest, inboundShape, stringify_body, or_undefined.
  rewrite <- channels_nonBlankLines.
  destruct (channels (channelsInput st)) as [|c cs]; [reflexivity|].
  cbn [snd]. rewrite truthy_spec.
  destruct (String.eqb (trim (videoUrl st)) EmptyString); reflexivity.
Qed.

(** C10, as stated, fails: after a successful run the user empties the
    textarea and runs again; the second run completes with an error
    message while the result of the first run is still in [data]. *)
Lemma handleAnalyze_stale_data :
  error_ afterSecondRun = Some "Add at least one channel to analyze."
  /\ data afterSecondRun = Some emptyAnalysis
  /\ ~ exclusive afterSecondRun.
Proof.
  assert (He : error_ afterSecondRun = Some "Add at least one channel to analyze.")
    by (vm_compute; reflexivity).
  assert (Hd : data afterSecondRun = Some emptyAnalysis)
    by (vm_compute; reflexivity).
  split; [exact He|]. split; [exact Hd|].
  intros [H|H]; congruence.
Qed.

(** C10, amended: a run of [handleAnalyze] that passes the guard on the
    channel list sends its request and ends with [isLoading] false and
    exactly one of [data] and [error] set: the response when the [try]
    block completed, with [error] null, or else the message of what was
    thrown, with [data] null.  A run stopped by the guard sets the error
    message and changes nothing else. *)
Theorem handleAnalyze_final_state (fetch : FetchRequest -> Outcome Response)
    (st : State) :
  let st' := fst (handleAnalyze fetch st) in
  (channels (channelsInput st) = []
   /\ st' = setError (Some "Add at least one channel to analyze.") st)
  \/
  (channels (channelsInput st) <> []
   /\ isLoading st' = false
   /\ ((exists json, tryBlock fetch st = Returned json
                     /\ data st' = Some json /\ error_ st' = None)
       \/
       (exists thrown, tryBlock fetch st = Threw thrown
                       /\ error_ st' = Some (message_or "Unexpected error occurred." thrown)
                       /\ data st' = None))
   /\ exclusive st').
Proof.
  intros st'. subst st'. unfold handleAnalyze.
  destruct (channels (channelsInput st)) as [|c cs] eqn:Hch.
  - left. split; reflexivity.
  - right. split; [discriminate|].
    destruct (tryBlock fetch st) as [json|thrown] eqn:Htry; cbn.
    + split; [reflexivity|]. split.
      * left. exists json. repeat split.
      * left. reflexivity.
    + split; [reflexivity|]. split.
      * right. exists thrown. repeat split.
      * right. reflexivity.
Qed.

(** The [try] block completes exactly when [fetch] resolves, the body
    parses, [response.ok] holds and the body has no truthy [error]. *)
Lemma tryBlock_returns (fetch : FetchRequest -> Outcome Response)
    (st : State) (j : ApiResponse) :
  tryBlock fetch st = Returned j <->
  exists response,
    fetch (analyzeRequest st) = Returned response
    /\ response_json response = Returned j
    /\ ok response = true
    /\ error_truthy j = false.
Proof.
  unfold tryBlock, bind. split.
  - destruct (fetch (analyzeRequest st)) as [response|e]; [|discriminate].
    destruct (response_json response) as [j'|e] eqn:Hj; [|discriminate].
    destruct (ok response) eqn:Hok; cbn; [|discriminate].
    destruct (error_truthy j') eqn:Ht; [discriminate|].
    intros [= <-]. exists response. repeat split; assumption.
  - intros (response & -> & -> & -> & ->). reflexivity.
Qed.

End PageFacts.

(** ** The route handler *)

Module RouteFacts.
Import Js Route.

Section Handler.
Variables Payload Result : Type.
Variable analyze : Payload -> Outcome Result.

(** C2: when parsing the body or the analysis throws, the handler
    answers with status 400 and the body [{ error: message }] alone,
    where the message is that of the thrown [Error], or "Unexpected
    error" for any other thrown value. *)
Theorem POST_maps_throw_to_400 (request : Request Payload) (e : Thrown) :
  throws analyze request e ->
  POST analyze request =
    {| status := 400;
       body := ErrorBody
                 match e with
                 | ErrorInstance message => message
                 | NonError _ => "Unexpected error"
                 end |}.
Proof.
  unfold throws, POST, bind.
  intros [-> | (payload & -> & ->)]; destruct e; reflexivity.
Qed.

(** When nothing throws, the result itself is the body, with 200. *)
Lemma POST_returns_result (request : Request Payload) (payload : Payload)
    (result : Result) :
  request_json request = Returned payload ->
  analyze payload = Returned result ->
  POST analyze request = {| status := 200; body := ResultBody result |}.
Proof. unfold POST, bind. intros -> ->. reflexivity. Qed.
End Handler.

Lemma POST_maps_throw_to_400_witness :
  POST (fun _ : string => Threw (A := nat) (NonError "42"))
       {| request_json := Returned "{}" |}
  = {| status := 400; body := ErrorBody "Unexpected error" |}
  /\ POST (fun _ : string => Returned 0)
       {| request_json := Threw (ErrorInstance "Unexpected end of JSON input") |}
     = {| status := 400; body := ErrorBody "Unexpected end of JSON input" |}.
Proof.
  split.
  - apply (POST_maps_throw_to_400 string nat
             (fun _ : string => Threw (A := nat) (NonError "42"))
             {| request_json := Returned "{}" |} (NonError "42")).
    right. exists "{}". split; reflexivity.
  - apply (POST_maps_throw_to_400 string nat (fun _ : string => Returned 0)
             {| request_json := Threw (ErrorInstance "Unexpected end of JSON input") |}
             (ErrorInstance "Unexpected end of JSON input")).
    left. reflexivity.
Defined.

End RouteFacts.

(** ** Sorting with a count comparator *)

Module SortFacts.
Import Js Order.

#[local] Hint Constructors before : core.

Lemma before_split {A : Type} (l : list A) (x y : A) :
  before l x y <-> exists l1 l2 l3, l = l1 ++ x :: l2 ++ y :: l3.
Proof.
  split.
  - induction 1 as [x y l Hin | z x y l _ (l1 & l2 & l3 & ->)].
    + apply in_split in Hin. destruct Hin as (l2 & l3 & ->).
      exists [], l2, l3. reflexivity.
    + exists (z :: l1), l2, l3. reflexivity.
  - intros (l1 & l2 & l3 & ->). induction l1 as [|z l1 IH]; cbn.
    + constructor. apply in_or_app. right. left. reflexivity.
    + constructor. exact IH.
Qed.

Lemma before_In {A : Type} (l : list A) (x y : A) :
  before l x y -> In x l /\ In y l.
Proof.
  induction 1 as [x y l Hin | z x y l _ [IHx IHy]]; cbn; auto.
Qed.

Lemma before_filter_elim {A : Type} (p : A -> bool) (l : list A) (x y : A) :
  before (filter p l) x y -> before l x y.
Proof.
  induction l as [|z l IH]; cbn; [inversion 1|].
  destruct (p z); [|auto].
  inversion 1; subst; [|auto].
  constructor. eapply proj1, filter_In. eassumption.
Qed.

Lemma before_filter_intro {A : Type} (p : A -> bool) (l : list A) (x y : A) :
  before l x y -> p x = true -> p y = true -> before (filter p l) x y.
Proof.
  induction 1 as [x y l Hin | z x y l _ IH]; intros Hx Hy; cbn.
  - rewrite Hx. constructor. apply filter_In. auto.
  - destruct (p z); auto.
Qed.

Lemma In_firstn {A : Type} (n : nat) (l : list A) (x : A) :
  In x (firstn n l) -> In x l.
Proof.
  revert l. induction n as [|n IH]; intros [|z l]; cbn; try tauto.
  intros [->|H]; auto.
Qed.

Lemma before_firstn {A : Type} (n : nat) (l : list A) (x y : A) :
  before (firstn n l) x y -> before l x y.
Proof.
  revert l. induction n as [|n IH]; intros [|z l]; cbn; try (inversion 1; fail).
  inversion 1; subst; [|auto].
  constructor. eapply In_firstn. eassumption.
Qed.

Lemma NoDup_firstn {A : Type} (n : nat) (l : list A) :
  NoDup l -> NoDup (firstn n l).
Proof.
  revert l. induction n as [|n IH]; intros [|z l]; cbn; try constructor.
  - inversion H; subst. intros Hin. apply In_firstn in Hin. contradiction.
  - inversion H; subst. auto.
Qed.

Lemma StronglySorted_firstn {A : Type} (R : A -> A -> Prop) (n : nat) (l : list A) :
  StronglySorted R l -> StronglySorted R (firstn n l).
Proof.
  revert l. induction n as [|n IH]; intros [|z l] H; cbn; try constructor.
  - apply IH. inversion H; assumption.
  - inversion H as [|? ? _ Hall]; subst.
    rewrite Forall_forall in *. intros w Hw. apply Hall.
    eapply In_firstn. eassumption.
Qed.

Lemma StronglySorted_app_inv {A : Type} (R : A -> A -> Prop) (a b : list A) :
  StronglySorted R (a ++ b) -> forall x y, In x a -> In y b -> R x y.
Proof.
  induction a as [|z a IH]; cbn; [tauto|].
  intros Hs x y [->|Hx] Hy.
  - inversion Hs as [|? ? _ Hall]; subst.
    rewrite Forall_forall in Hall. apply Hall. apply in_or_app. right. exact Hy.
  - inversion Hs; subst. auto.
Qed.

Lemma before_total {A : Type} (l : list A) (x y : A) :
  In x l -> In y l -> x <> y -> before l x y \/ before l y x.
Proof.
  induction l as [|z l IH]; cbn; [tauto|].
  intros [->|Hx] [->|Hy] Hne.
  - congruence.
  - left. constructor. exact Hy.
  - right. constructor. exact Hx.
  - destruct (IH Hx Hy Hne); auto.
Qed.

Lemma before_antisym {A : Type} (l : list A) (x y : A) :
  NoDup l -> before l x y -> before l y x -> False.
Proof.
  induction 1 as [|z l Hnot _ IH]; [inversion 1|].
  intros Hxy Hyx.
  inversion Hxy as [? ? ? Hy | ? ? ? ? Hxy']; subst;
    inversion Hyx as [? ? ? Hx | ? ? ? ? Hyx']; subst.
  - contradiction.
  - apply before_In in Hyx'. tauto.
  - apply before_In in Hxy'. tauto.
  - auto.
Qed.

(** With ties in one direction and no entry twice, ties are kept. *)
Lemma ties_kept_of_stable {C : Type} (source l : list (string * C)) :
  NoDup source ->
  (forall x y, before l x y -> snd x = snd y -> before source x y) ->
  ties_kept source l.
Proof.
  intros Hnd Hstable. split; [exact Hstable|].
  intros x y Hx Hy Heq Hsrc.
  assert (Hne : x <> y).
  { intros ->. exact (before_antisym _ _ _ Hnd Hsrc Hsrc). }
  destruct (before_total l x y Hx Hy Hne) as [H|H]; [exact H|].
  exfalso. apply (before_antisym _ _ _ Hnd Hsrc). apply Hstable; [exact H|].
  symmetry. exact Heq.
Qed.

Section Sort.
Variable A : Type.
Variable compareFn : A -> A -> Z.

Lemma insert_Permutation (x : A) (l : list A) :
  Permutation (insert compareFn x l) (x :: l).
Proof.
  induction l as [|y l IH]; cbn; [reflexivity|].
  destruct (0 <? compareFn x y)%Z; [|reflexivity].
  rewrite IH. apply perm_swap.
Qed.

Lemma Array_sort_Permutation (l : list A) :
  Permutation (Array_sort compareFn l) l.
Proof.
  induction l as [|x l IH]; cbn; [reflexivity|].
  rewrite insert_Permutation. constructor. exact IH.
Qed.

(** The comparator orders by a count, larger counts first. *)
Variable count : A -> Z.
Hypothesis compareFn_count : forall a b, compareFn a b = (count b - count a)%Z.

Lemma insert_has_count (k : Z) (x : A) (l : list A) :
  filter (has_count count k) (insert compareFn x l) = filter (has_count count k) (x :: l).
Proof.
  induction l as [|y l IH]; [reflexivity|].
  cbn [insert]. rewrite compareFn_count.
  destruct (0 <? count y - count x)%Z eqn:Hlt; [|reflexivity].
  apply Z.ltb_lt in Hlt.
  cbn [filter] in *. rewrite IH. unfold has_count.
  destruct (count y =? k)%Z eqn:Hy, (count x =? k)%Z eqn:Hx; try reflexivity.
  apply Z.eqb_eq in Hy, Hx. lia.
Qed.

(** Stability: the entries of one count keep their order. *)
Lemma Array_sort_stable (k : Z) (l : list A) :
  filter (has_count count k) (Array_sort compareFn l) = filter (has_count count k) l.
Proof.
  induction l as [|x l IH]; [reflexivity|].
  cbn [Array_sort fold_right]. rewrite insert_has_count.
  cbn [filter]. fold (Array_sort compareFn l). rewrite IH. reflexivity.
Qed.

Lemma insert_sorted (x : A) (l : list A) :
  StronglySorted (nonincreasing count) l ->
  StronglySorted (nonincreasing count) (insert compareFn x l).
Proof.
  induction 1 as [|y l Hs IH Hall]; cbn.
  - repeat constructor.
  - rewrite compareFn_count.
    destruct (0 <? count y - count x)%Z eqn:Hlt.
    + apply Z.ltb_lt in Hlt. constructor; [exact IH|].
      apply (Permutation_Forall (Permutation_sym (insert_Permutation x l))).
      constructor; [unfold nonincreasing; lia | exact Hall].
    + apply Z.ltb_ge in Hlt. constructor; [constructor; assumption|].
      constructor; [unfold nonincreasing; lia|].
      eapply Forall_impl; [|exact Hall].
      unfold nonincreasing. intros; lia.
Qed.

Lemma Array_sort_sorted (l : list A) :
  StronglySorted (nonincreasing count) (Array_sort compareFn l).
Proof.
  induction l as [|x l IH]; cbn; [constructor|].
  apply insert_sorted. exact IH.
Qed.

(** Ties keep the order of the input. *)
Lemma Array_sort_ties (l : list A) (x y : A) :
  before (Array_sort compareFn l) x y -> count x = count y -> before l x y.
Proof.
  intros Hb Heq.
  apply (before_filter_elim (has_count count (count x))).
  rewrite <- Array_sort_stable.
  apply before_filter_intro; [exact Hb| |]; unfold has_count.
  - apply Z.eqb_refl.
  - rewrite Heq. apply Z.eqb_refl.
Qed.
End Sort.
End SortFacts.

(** ** Frequency mappings, ranking and merging *)

Module FrequencyFacts.
Import Js Order Seo SortFacts.

Lemma list_sum_cons (x : nat) (l : list nat) : list_sum (x :: l) = x + list_sum l.
Proof. reflexivity. Qed.

Lemma existsb_eqb_In (t : string) (l : list string) :
  existsb (String.eqb t) l = true <-> In t l.
Proof.
  rewrite existsb_exists. split.
  - intros (x & Hin & Heq). apply String.eqb_eq in Heq. subst. exact Hin.
  - intros Hin. exists t. split; [exact Hin|apply String.eqb_refl].
Qed.

Lemma add_keys (t : string) (n : nat) (m : Frequency) :
  map fst (add t n m) =
    if existsb (String.eqb t) (map fst m) then map fst m else map fst m ++ [t].
Proof.
  induction m as [|[k c] m IH]; [reflexivity|].
  cbn. rewrite (String.eqb_sym t k).
  destruct (String.eqb k t); cbn; [reflexivity|].
  rewrite IH. destruct (existsb (String.eqb t) (map fst m)); reflexivity.
Qed.

Lemma add_unique_keys (t : string) (n : nat) (m : Frequency) :
  unique_keys m -> unique_keys (add t n m).
Proof.
  unfold unique_keys. intros Hm. rewrite add_keys.
  destruct (existsb (String.eqb t) (map fst m)) eqn:E; [exact Hm|].
  apply NoDup_app; [exact Hm|repeat constructor; tauto|].
  intros x Hx [<-|[]].
  apply existsb_eqb_In in Hx. congruence.
Qed.

Lemma count_of_add (t' t : string) (n : nat) (m : Frequency) :
  count_of t' (add t n m) = weight t' (t, n) + count_of t' m.
Proof.
  unfold weight. cbn [fst snd].
  induction m as [|[k c] m IH]; cbn.
  - destruct (String.eqb t t'); lia.
  - destruct (String.eqb k t) eqn:Ekt; cbn.
    + apply String.eqb_eq in Ekt. subst k.
      destruct (String.eqb t t'); lia.
    + destruct (String.eqb k t') eqn:Ekt'; [|exact IH].
      apply String.eqb_eq in Ekt'. subst k. rewrite (String.eqb_sym t t'), Ekt.
      reflexivity.
Qed.

Lemma fold_addEntry_unique_keys (entries : list (string * nat)) (m : Frequency) :
  unique_keys m -> unique_keys (fold_left addEntry entries m).
Proof.
  revert m. induction entries as [|e entries IH]; intros m Hm; cbn; [exact Hm|].
  apply IH. apply add_unique_keys. exact Hm.
Qed.

Lemma count_of_fold_addEntry (t : string) (entries : list (string * nat))
    (m : Frequency) :
  count_of t (fold_left addEntry entries m) =
    count_of t m + list_sum (map (weight t) entries).
Proof.
  revert m. induction entries as [|e entries IH]; intros m; [cbn; lia|].
  cbn [fold_left map]. rewrite list_sum_cons, IH.
  unfold addEntry. rewrite count_of_add.
  destruct e as [k c]. cbn [fst snd]. lia.
Qed.


Lemma count_of_absent (t : string) (m : Frequency) :
  ~ In t (map fst m) -> count_of t m = 0.
Proof.
  induction m as [|[k c] m IH]; cbn; [reflexivity|].
  intros Hnot. destruct (String.eqb k t) eqn:E.
  - apply String.eqb_eq in E. tauto.
  - apply IH. tauto.
Qed.


Lemma count_of_In (t : string) (c : nat) (m : Frequency) :
  unique_keys m -> In (t, c) m -> count_of t m = c.
Proof.
  unfold unique_keys.
  induction m as [|[k d] m IH]; cbn; [tauto|].
  intros Hnd. inversion Hnd as [|? ? Hnot Hm]; subst.
  intros [[= -> ->]|Hin].
  - rewrite String.eqb_refl. reflexivity.
  - destruct (String.eqb k t) eqn:E; [|auto].
    apply String.eqb_eq in E. subst k. exfalso. apply Hnot.
    apply (in_map fst) in Hin. exact Hin.
Qed.

(** *** Counting tokens *)

Lemma countTokens_as_entries (tokens : list string) (m : Frequency) :
  fold_left (fun m token => add token 1 m) tokens m =
    fold_left addEntry (map (fun t => (t, 1)) tokens) m.
Proof.
  revert m. induction tokens as [|t tokens IH]; intros m; cbn; [reflexivity|].
  apply IH.
Qed.

Lemma countTokens_unique_keys (tokens : list string) :
  unique_keys (countTokens tokens).
Proof.
  unfold countTokens. rewrite countTokens_as_entries.
  apply fold_addEntry_unique_keys. constructor.
Qed.

(** The mapping lists its tokens in first-seen order. *)
Lemma countTokens_firstSeen (tokens : list string) :
  map fst (countTokens tokens) = firstSeen tokens.
Proof.
  unfold countTokens, firstSeen.
  change (@nil string) with (map fst (@nil (string * nat))) at 2.
  generalize (@nil (string * nat)) as m.
  induction tokens as [|t tokens IH]; intros m; cbn; [reflexivity|].
  rewrite IH, add_keys. reflexivity.
Qed.

Lemma count_of_countTokens (t : string) (tokens : list string) :
  count_of t (countTokens tokens) = count_occ string_dec tokens t.
Proof.
  unfold countTokens. rewrite countTokens_as_entries, count_of_fold_addEntry.
  cbn [count_of]. induction tokens as [|x tokens IH]; [reflexivity|].
  cbn [map count_occ]. rewrite list_sum_cons.
  unfold weight at 1. cbn [fst snd].
  destruct (string_dec x t) as [->|Hne].
  - rewrite String.eqb_refl. cbn in IH |- *. rewrite IH. reflexivity.
  - apply String.eqb_neq in Hne. rewrite Hne. exact IH.
Qed.

(** *** Tokens in the order they are met *)

Lemma seen_fold_In (t : string) (tokens seen : list string) :
  In t (fold_left
          (fun seen t => if existsb (String.eqb t) seen then seen else seen ++ [t])
          tokens seen)
  <-> In t seen \/ In t tokens.
Proof.
  revert seen. induction tokens as [|x tokens IH]; intros seen; cbn; [tauto|].
  rewrite IH. destruct (existsb (String.eqb x) seen) eqn:E.
  - apply existsb_eqb_In in E. split; [tauto|].
    intros [H|[<-|H]]; tauto.
  - rewrite in_app_iff. cbn. tauto.
Qed.

Lemma firstSeen_In (t : string) (tokens : list string) :
  In t (firstSeen tokens) <-> In t tokens.
Proof. unfold firstSeen. rewrite seen_fold_In. cbn. tauto. Qed.

Lemma keys_fold_addEntry (entries : list (string * nat)) (m : Frequency) :
  map fst (fold_left addEntry entries m)
  = fold_left
      (fun seen t => if existsb (String.eqb t) seen then seen else seen ++ [t])
      (map fst entries) (map fst m).
Proof.
  revert m. induction entries as [|e entries IH]; intros m; cbn; [reflexivity|].
  rewrite IH. unfold addEntry. rewrite add_keys. reflexivity.
Qed.

(** Merging lists its tokens in the order they are first met. *)
Lemma merge_tokensMet (lists : list Frequency) :
  map fst (merge lists) = tokensMet lists.
Proof.
  unfold merge, tokensMet, firstSeen.
  exact (keys_fold_addEntry (List.concat lists) []).
Qed.

Lemma tokensMet_In (t : string) (lists : list Frequency) :
  In t (tokensMet lists) <-> exists l, In l lists /\ In t (map fst l).
Proof.
  unfold tokensMet. rewrite firstSeen_In, in_map_iff. split.
  - intros (e & <- & He). apply in_concat in He. destruct He as (l & Hl & He).
    exists l. split; [exact Hl|]. apply in_map. exact He.
  - intros (l & Hl & Ht). apply in_map_iff in Ht. destruct Ht as (e & <- & He).
    exists e. split; [reflexivity|]. apply in_concat. exists l. tauto.
Qed.

End FrequencyFacts.

(** ** Ranked lists *)

Module RankFacts.
Import Js Order Seo SortFacts FrequencyFacts.

Lemma byCountDescending_countZ (a b : string * nat) :
  byCountDescending a b = (countZ b - countZ a)%Z.
Proof. reflexivity. Qed.

Lemma StronglySorted_weaken {A : Type} (R R' : A -> A -> Prop) (l : list A) :
  (forall a b, R a b -> R' a b) -> StronglySorted R l -> StronglySorted R' l.
Proof.
  intros Himp. induction 1 as [|x l _ IH Hall]; constructor; [exact IH|].
  eapply Forall_impl; [|exact Hall]. intros b. apply Himp.
Qed.

Lemma unique_keys_Permutation (m m' : Frequency) :
  Permutation m m' -> unique_keys m -> unique_keys m'.
Proof.
  unfold unique_keys. intros Hp.
  apply Permutation_NoDup. apply Permutation_map. exact Hp.
Qed.

Lemma unique_keys_firstn (n : nat) (m : Frequency) :
  unique_keys m -> unique_keys (firstn n m).
Proof.
  unfold unique_keys. rewrite <- firstn_map. apply NoDup_firstn.
Qed.

Section Rank.
Variable topN : nat.

Lemma rank_unique_keys (m : Frequency) :
  unique_keys m -> unique_keys (rank topN m).
Proof.
  intros Hm. unfold rank. apply unique_keys_firstn.
  apply (unique_keys_Permutation m); [|exact Hm].
  symmetry. apply Array_sort_Permutation.
Qed.

Lemma rank_sorted (m : Frequency) : StronglySorted count_ge (rank topN m).
Proof.
  unfold rank. apply StronglySorted_firstn.
  apply (StronglySorted_weaken (Order.nonincreasing countZ)).
  - unfold Order.nonincreasing, count_ge, countZ. intros a b. lia.
  - apply (Array_sort_sorted _ byCountDescending countZ byCountDescending_countZ).
Qed.

Lemma rank_ties (m : Frequency) (x y : string * nat) :
  before (rank topN m) x y -> snd x = snd y -> before m x y.
Proof.
  unfold rank. intros Hb Heq. apply before_firstn in Hb.
  apply (Array_sort_ties _ byCountDescending countZ byCountDescending_countZ);
    [exact Hb|].
  unfold countZ. rewrite Heq. reflexivity.
Qed.

Lemma rank_incl (m : Frequency) : incl (rank topN m) m.
Proof.
  unfold rank. intros e He. apply In_firstn in He.
  apply (Permutation_in e (Array_sort_Permutation _ byCountDescending m)).
  exact He.
Qed.

Lemma rank_length (m : Frequency) : List.length (rank topN m) <= topN.
Proof. unfold rank. apply firstn_le_length. Qed.

Lemma rank_ranked (m : Frequency) : unique_keys m -> ranked m (rank topN m).
Proof.
  intros Hm. split; [|split; [|split]].
  - apply rank_unique_keys. exact Hm.
  - apply rank_sorted.
  - apply ties_kept_of_stable; [|apply rank_ties].
    apply (NoDup_map_inv fst). exact Hm.
  - apply rank_incl.
Qed.

(** A token that is ranked keeps its count; one that is cut counts 0. *)
Lemma count_of_rank (t : string) (m : Frequency) :
  unique_keys m ->
  count_of t (rank topN m) =
    if existsb (String.eqb t) (map fst (rank topN m)) then count_of t m else 0.
Proof.
  intros Hm.
  destruct (existsb (String.eqb t) (map fst (rank topN m))) eqn:E.
  - apply existsb_eqb_In in E. apply in_map_iff in E.
    destruct E as ([k c] & Hk & Hin). cbn in Hk. subst k.
    rewrite (count_of_In t c _ (rank_unique_keys m Hm) Hin).
    symmetry. apply (count_of_In t c _ Hm). apply rank_incl. exact Hin.
  - apply count_of_absent. intros Hin.
    apply existsb_eqb_In in Hin. congruence.
Qed.
End Rank.

(** *** Merging *)

Lemma merge_unique_keys (lists : list Frequency) : unique_keys (merge lists).
Proof.
  unfold merge. apply (fold_addEntry_unique_keys (List.concat lists)). constructor.
Qed.




End RankFacts.

(** ** [prettyFrequency] *)

Module PrettyFacts.
Import Js Order Page SortFacts.

Lemma byCountDescending_snd (a b : string * Z) :
  byCountDescending a b = (snd b - snd a)%Z.
Proof. reflexivity. Qed.

Lemma filter_both_Permutation {A : Type} (p : A -> bool) (l : list A) :
  Permutation (filter p l ++ filter (fun x => negb (p x)) l) l.
Proof.
  induction l as [|x l IH]; [reflexivity|].
  cbn. destruct (p x); cbn.
  - constructor. exact IH.
  - symmetry. apply Permutation_cons_app. symmetry. exact IH.
Qed.

Lemma Object_entries_Permutation (o : NumberRecord) :
  Permutation (Object_entries o) o.
Proof.
  unfold Object_entries.
  rewrite (Array_sort_Permutation _ index_order (filter is_index_key o)).
  apply filter_both_Permutation.
Qed.

(** Without a key that is an array index the entries come in creation
    order. *)
Lemma Object_entries_creation_order (o : NumberRecord) :
  forallb (fun p => negb (is_index_key p)) o = true -> Object_entries o = o.
Proof.
  unfold Object_entries. induction o as [|p o IH]; [reflexivity|].
  cbn. destruct (is_index_key p); cbn; [discriminate|].
  intros Ho. specialize (IH Ho).
  destruct (filter is_index_key o) as [|q r] eqn:E.
  - cbn in IH |- *. rewrite IH. reflexivity.
  - exfalso. assert (Hq : In q (filter is_index_key o)) by (rewrite E; left; reflexivity).
    apply filter_In in Hq. destruct Hq as [Hq1 Hq2].
    rewrite forallb_forall in Ho. specialize (Ho q Hq1).
    rewrite Hq2 in Ho. discriminate.
Qed.

Lemma prettyEntries_unique_keys (freq : NumberRecord) :
  NoDup (map fst freq) -> NoDup (map fst (prettyEntries freq)).
Proof.
  intros Hf. unfold prettyEntries, slice0.
  rewrite <- firstn_map. apply NoDup_firstn.
  eapply Permutation_NoDup; [|exact Hf].
  apply Permutation_map. symmetry.
  rewrite (Array_sort_Permutation _ byCountDescending (Object_entries freq)).
  apply Object_entries_Permutation.
Qed.

Lemma prettyEntries_sorted (freq : NumberRecord) :
  StronglySorted count_ge (prettyEntries freq).
Proof.
  unfold prettyEntries, slice0. apply StronglySorted_firstn.
  apply (Array_sort_sorted _ byCountDescending snd byCountDescending_snd).
Qed.

Lemma prettyEntries_ties (freq : NumberRecord) (x y : string * Z) :
  before (prettyEntries freq) x y -> snd x = snd y ->
  before (Object_entries freq) x y.
Proof.
  unfold prettyEntries, slice0. intros Hb Heq. apply before_firstn in Hb.
  apply (Array_sort_ties _ byCountDescending snd byCountDescending_snd);
    assumption.
Qed.

Lemma prettyEntries_ties_kept (freq : NumberRecord) :
  NoDup (map fst freq) ->
  ties_kept (Object_entries freq) (prettyEntries freq).
Proof.
  intros Hf. apply ties_kept_of_stable; [|apply prettyEntries_ties].
  apply (NoDup_map_inv fst).
  eapply Permutation_NoDup; [|exact Hf].
  apply Permutation_map. symmetry. apply Object_entries_Permutation.
Qed.

Lemma prettyEntries_length (freq : NumberRecord) :
  List.length (prettyEntries freq) <= 6.
Proof. unfold prettyEntries, slice0. apply firstn_le_length. Qed.

End PrettyFacts.

(** ** Ranked lists of the aggregator and of the page *)

Module RankingTheorems.
Import Js Order Seo SortFacts FrequencyFacts RankFacts.

(** C4, as stated, fails on [prettyFrequency]: "top" was seen before "5"
    and both have count 2, yet [Object.entries] lists the array-index key
    "5" first, and the stable sort keeps it there. *)
Lemma prettyFrequency_index_key_first :
  Page.prettyFrequency Page.openingCounts = "5 (2), TOP (2)"
  /\ before Page.openingCounts ("top", 2%Z) ("5", 2%Z)
  /\ before (Page.prettyEntries Page.openingCounts) ("5", 2%Z) ("top", 2%Z)
  /\ ~ before Page.openingCounts ("5", 2%Z) ("top", 2%Z)
  /\ ~ ties_kept Page.openingCounts (Page.prettyEntries Page.openingCounts).
Proof.
  assert (Hshown : before (Page.prettyEntries Page.openingCounts)
                     ("5", 2%Z) ("top", 2%Z))
    by (constructor; left; reflexivity).
  assert (Hnot : ~ before Page.openingCounts ("5", 2%Z) ("top", 2%Z)).
  { intros H. unfold Page.openingCounts in H.
    inversion H as [? ? ? Hin | ? ? ? ? H']; subst.
    inversion H' as [? ? ? Hin | ? ? ? ? H'']; subst.
    - destruct Hin.
    - inversion H''. }
  split; [vm_compute; reflexivity|].
  split; [constructor; left; reflexivity|].
  split; [exact Hshown|]. split; [exact Hnot|].
  intros [Hkept _]. apply Hnot. apply Hkept; [exact Hshown|reflexivity].
Qed.

(** C4, amended: every ranked keyword and hashtag list of a channel
    analysis and of the aggregate has each token once, is sorted by
    non-increasing count, and keeps entries of equal count in the order
    of the frequency mapping it ranks.  That mapping is in first-seen
    order: for a channel, the order in which the tokens first occur in the
    channel's text; for the aggregate, the order in which the tokens are
    first met in the per-channel ranked lists, channel after channel.  The
    entries [prettyFrequency] shows have each key once and are sorted by
    non-increasing count; entries of equal count stand in the order of
    [Object.entries], which is creation order only when no key is an
    array index. *)
Theorem ranked_lists_sorted_unique (stopwords : list string) (topN sampleLimit : nat)
    (s : ChannelSample) (analyses : list ChannelAnalysis)
    (freq : NumberRecord) :
  NoDup (map fst freq) ->
  let a := analyzeChannel stopwords topN sampleLimit s in
  let keywordTokens := filter (fun t => negb (is_stopword stopwords t)) (tokensOf s) in
  let hashtagTokens := filter is_hashtag (tokensOf s) in
  (ranked (countTokens keywordTokens) (topKeywords a)
   /\ map fst (countTokens keywordTokens) = firstSeen keywordTokens)
  /\ (ranked (countTokens hashtagTokens) (commonHashtags a)
      /\ map fst (countTokens hashtagTokens) = firstSeen hashtagTokens)
  /\ (ranked (merge (map topKeywords analyses)) (keywords (summarize topN analyses))
      /\ map fst (merge (map topKeywords analyses))
         = tokensMet (map topKeywords analyses))
  /\ (ranked (merge (map commonHashtags analyses)) (hashtags (summarize topN analyses))
      /\ map fst (merge (map commonHashtags analyses))
         = tokensMet (map commonHashtags analyses))
  /\ (NoDup (map fst (Page.prettyEntries freq))
      /\ StronglySorted Page.count_ge (Page.prettyEntries freq)
      /\ ties_kept (Object_entries freq) (Page.prettyEntries freq)
      /\ List.length (Page.prettyEntries freq) <= 6
      /\ (forallb (fun p => negb (is_index_key p)) freq = true ->
          Object_entries freq = freq)).
Proof.
  intros Hfreq a keywordTokens hashtagTokens.
  split; [split|split; [split|split; [split|split; [split|]]]].
  - apply rank_ranked, countTokens_unique_keys.
  - apply countTokens_firstSeen.
  - apply rank_ranked, countTokens_unique_keys.
  - apply countTokens_firstSeen.
  - apply rank_ranked, merge_unique_keys.
  - apply merge_tokensMet.
  - apply rank_ranked, merge_unique_keys.
  - apply merge_tokensMet.
  - split; [apply PrettyFacts.prettyEntries_unique_keys; exact Hfreq|].
    split; [apply PrettyFacts.prettyEntries_sorted|].
    split; [apply PrettyFacts.prettyEntries_ties_kept; exact Hfreq|].
    split; [apply PrettyFacts.prettyEntries_length|].
    apply PrettyFacts.Object_entries_creation_order.
Qed.

Lemma ranked_lists_sorted_unique_witness :
  NoDup (map fst Page.openingCounts)
  /\ ranked (countTokens (filter is_hashtag (tokensOf Sample.newsChannel)))
       [("#news", 2); ("#top5", 1)]
  /\ StronglySorted Page.count_ge [("5", 2%Z); ("top", 2%Z)].
Proof.
  assert (Hnd : NoDup (map fst Page.openingCounts)).
  { cbn. repeat constructor; cbn; intuition discriminate. }
  split; [exact Hnd|].
  pose proof (ranked_lists_sorted_unique ["the"] 10 10 Sample.newsChannel [] _ Hnd) as H.
  cbv zeta in H.
  destruct H as (_ & (Hh & _) & _ & _ & (_ & Hs & _)).
  split; [exact Hh|exact Hs].
Defined.

End RankingTheorems.

(** ** The aggregator *)

Module AggregatorTheorems.
Import Js Order Seo SortFacts FrequencyFacts RankFacts.

Section Parameters.
Variable stopwords : list string.
Variable topN : nat.
Variable sampleLimit : nat.
Variable synthesize :
  AggregateSummary -> list ChannelAnalysis -> TargetVideo -> SeoRecommendation.
Variable invalidInputMessage : string.

Local Abbreviation analyzeChannel := (Seo.analyzeChannel stopwords topN sampleLimit).
Local Abbreviation summarize := (Seo.summarize topN).
Local Abbreviation rank := (Seo.rank topN).
Local Abbreviation aggregate :=
  (Seo.aggregate stopwords topN sampleLimit synthesize).




(** *** The recommendation *)

Lemma aggregate_recommendation (samples : list ChannelSample)
    (target : option TargetVideo) (result : AnalysisResult) :
  aggregate samples target = inr result ->
  targetVideo result = target
  /\ recommendation result =
       option_map
         (synthesize (summarize (map analyzeChannel samples))
            (map analyzeChannel samples))
         target.
Proof.
  unfold Seo.aggregate.
  destruct (existsb (parseable) samples); [|discriminate].
  intros [= <-]. split; reflexivity.
Qed.

(** *** Average title length *)

Lemma running_total (ts : list string) (acc : Z) :
  fold_left (fun sum t => (sum + Z.of_nat (String.length t))%Z) ts acc
  = (acc + Z.of_nat (list_sum (map String.length ts)))%Z.
Proof.
  revert acc. induction ts as [|t ts IH]; intros acc; [cbn; lia|].
  cbn [fold_left map]. rewrite list_sum_cons, IH. lia.
Qed.

(** C5: the average title length of a channel analysis is not negative;
    it is 0 for a channel without titles and otherwise the sum of the
    character counts of the titles divided by their number. *)
Theorem averageTitleLength_is_mean (s : ChannelSample) :
  let average := averageTitleLength (analyzeChannel s) in
  (0 <= average)%Q
  /\ match titles s with
     | [] => average = 0%Q
     | _ :: _ =>
         (average ==
            inject_Z (Z.of_nat (list_sum (map String.length (titles s))))
            / inject_Z (Z.of_nat (List.length (titles s))))%Q
     end.
Proof.
  cbv zeta. cbn [averageTitleLength Seo.analyzeChannel]. unfold averageLength.
  destruct (titles s) as [|t ts] eqn:E.
  - split; [apply Qle_refl|reflexivity].
  - rewrite running_total, Z.add_0_l. split; [|reflexivity].
    apply Qle_shift_div_l.
    + change 0%Q with (inject_Z 0). rewrite <- Zlt_Qlt. cbn [List.length]. lia.
    + rewrite Qmult_0_l. change 0%Q with (inject_Z 0). rewrite <- Zle_Qle. lia.
Qed.

(** *** The analysis as the route handler calls it *)

Variable fetchChannel : string -> Outcome ChannelSample.
Variable fetchVideo : string -> Outcome TargetVideo.

Local Abbreviation analyzeChannelsAndSuggest :=
  (Seo.analyzeChannelsAndSuggest stopwords topN sampleLimit synthesize
     fetchChannel fetchVideo invalidInputMessage).

Lemma analysis_returns (payload : Inbound) (result : AnalysisResult) :
  analyzeChannelsAndSuggest payload = Returned result ->
  exists samples target,
    resolveChannels fetchChannel (channels payload) = Returned samples
    /\ resolveTarget fetchVideo (targetVideoUrl payload) = Returned target
    /\ aggregate samples target = inr result.
Proof.
  unfold Seo.analyzeChannelsAndSuggest, bind.
  destruct (resolveChannels fetchChannel (channels payload)) as [samples|e];
    [|discriminate].
  destruct (resolveTarget fetchVideo (targetVideoUrl payload)) as [target|e];
    [|discriminate].
  destruct (aggregate samples target) as [e|r] eqn:E; [discriminate|].
  intros [= <-]. exists samples, target. repeat split. exact E.
Qed.

Lemma resolveTarget_returns (link : option string) (target : option TargetVideo) :
  resolveTarget fetchVideo link = Returned target ->
  match target with
  | Some video => exists url, link = Some url /\ fetchVideo url = Returned video
  | None => link = None
  end.
Proof.
  unfold resolveTarget, bind. destruct link as [url|].
  - destruct (fetchVideo url) as [video|e] eqn:E; [|discriminate].
    intros [= <-]. exists url. split; [reflexivity|exact E].
  - intros [= <-]. reflexivity.
Qed.

(** C1: an analysis result carries a recommendation exactly when the
    input named a target video and the collaborator resolved it; the
    result then shows that video, and an input without a target video
    gives a result with neither target video nor recommendation. *)
Theorem recommendation_iff_target_resolved (payload : Inbound)
    (result : AnalysisResult) :
  analyzeChannelsAndSuggest payload = Returned result ->
  (recommendation result <> None <->
   exists url video,
     targetVideoUrl payload = Some url /\ fetchVideo url = Returned video)
  /\ (forall url video,
        targetVideoUrl payload = Some url -> fetchVideo url = Returned video ->
        targetVideo result = Some video /\ recommendation result <> None)
  /\ (targetVideoUrl payload = None ->
      targetVideo result = None /\ recommendation result = None)
  /\ (targetVideo result = None -> recommendation result = None).
Proof.
  intros Hrun.
  destruct (analysis_returns payload result Hrun) as (samples & target & _ & Ht & Ha).
  apply aggregate_recommendation in Ha. destruct Ha as [Htv Hrec].
  assert (Hsupplied : forall url video,
             targetVideoUrl payload = Some url -> fetchVideo url = Returned video ->
             target = Some video).
  { intros url video Hurl Hfetch. unfold resolveTarget, bind in Ht.
    rewrite Hurl, Hfetch in Ht. congruence. }
  apply resolveTarget_returns in Ht.
  rewrite Hrec, Htv. split; [split|split; [|split]].
  - destruct target as [video|]; [|cbn; congruence].
    intros _. destruct Ht as (url & Hurl & Hfetch).
    exists url, video. split; assumption.
  - intros (url & video & Hurl & Hfetch).
    rewrite (Hsupplied url video Hurl Hfetch). cbn. discriminate.
  - intros url video Hurl Hfetch.
    rewrite (Hsupplied url video Hurl Hfetch). cbn. split; [reflexivity|discriminate].
  - intros Hnone. destruct target as [video|]; [|split; reflexivity].
    destruct Ht as (url & Hurl & _). congruence.
  - intros ->. reflexivity.
Qed.

(** *** Failure on input without text *)

Lemma nothing_parseable (samples : list ChannelSample) :
  samples = [] \/ (forall s, In s samples -> parseable s = false) ->
  existsb parseable samples = false.
Proof.
  intros [->|Hall]; [reflexivity|].
  destruct (existsb parseable samples) eqn:E; [|reflexivity].
  apply existsb_exists in E. destruct E as (s & Hin & Hp).
  rewrite (Hall s Hin) in Hp. discriminate.
Qed.

(** C6: on an empty list of samples, or when no sample has a token, the
    aggregator fails with [InvalidInput] and builds no analysis; the
    route handler turns that failure into a 400 response whose body is
    the message; and the page, when its channel list is empty, sets an
    error message and sends no request. *)
Theorem invalid_input_is_reported (samples : list ChannelSample)
    (target : option TargetVideo) (request : Route.Request Inbound)
    (payload : Inbound) (fetch : Page.FetchRequest -> Outcome Page.Response)
    (st : Page.State) :
  samples = [] \/ (forall s, In s samples -> parseable s = false) ->
  Route.request_json request = Returned payload ->
  resolveChannels fetchChannel (channels payload) = Returned samples ->
  resolveTarget fetchVideo (targetVideoUrl payload) = Returned target ->
  Page.channels (Page.channelsInput st) = [] ->
  aggregate samples target = inl InvalidInput
  /\ Route.POST analyzeChannelsAndSuggest request
     = {| Route.status := 400; Route.body := Route.ErrorBody invalidInputMessage |}
  /\ Page.handleAnalyze fetch st
     = (Page.setError (Some "Add at least one channel to analyze.") st, []).
Proof.
  intros Hnone Hjson Hsamples Htarget Hempty.
  apply nothing_parseable in Hnone.
  assert (Hagg : aggregate samples target = inl InvalidInput).
  { unfold Seo.aggregate. rewrite Hnone. reflexivity. }
  split; [exact Hagg|]. split.
  - unfold Route.POST, Seo.analyzeChannelsAndSuggest, bind.
    rewrite Hjson, Hsamples, Htarget, Hagg. reflexivity.
  - unfold Page.handleAnalyze. rewrite Hempty. reflexivity.
Qed.

End Parameters.

End AggregatorTheorems.

(** ** Concrete runs *)

Module SampleRuns.
Import Js Seo Sample FrequencyFacts RankFacts AggregatorTheorems.

(** The examples of section 8 of the specification. *)
Example opening_words_of_newsChannel :
  firstWordFrequency (analyzeChannel stopwords topN sampleLimit newsChannel)
  = [("top", 2)].
Proof. vm_compute. reflexivity. Qed.

Example keyword_counts_of_newsChannel :
  let counted := topKeywords (analyzeChannel stopwords topN sampleLimit newsChannel) in
  count_of "top" counted = 2 /\ count_of "5" counted = 2.
Proof. vm_compute. split; reflexivity. Qed.

Example aggregate_hashtags_of_newsChannel :
  map fst (hashtags (summarize topN [analyzeChannel stopwords topN sampleLimit newsChannel]))
  = ["#news"; "#top5"].
Proof. vm_compute. reflexivity. Qed.

Example empty_channel_list_is_invalid :
  analyze noChannels = Threw (ErrorInstance invalidInputMessage).
Proof. vm_compute. reflexivity. Qed.

Lemma recommendation_iff_target_resolved_witness :
  exists result,
    analyze withTarget = Returned result /\ recommendation result <> None.
Proof.
  destruct (analyze withTarget) as [result|e] eqn:Hrun.
  - exists result. split; [reflexivity|].
    apply (recommendation_iff_target_resolved stopwords topN sampleLimit synthesize
             invalidInputMessage fetchChannel fetchVideo withTarget result Hrun).
    exists "https://www.youtube.com/watch?v=dQw4w9WgXcQ", dailyVideo.
    split; reflexivity.
  - vm_compute in Hrun. discriminate.
Defined.

Lemma invalid_input_is_reported_witness :
  aggregate stopwords topN sampleLimit synthesize [] None = inl InvalidInput
  /\ Route.POST analyze {| Route.request_json := Returned noChannels |}
     = {| Route.status := 400; Route.body := Route.ErrorBody invalidInputMessage |}
  /\ Page.handleAnalyze Page.fetchOk
       (Page.setChannelsInput EmptyString Page.initialState)
     = (Page.setError (Some "Add at least one channel to analyze.")
          (Page.setChannelsInput EmptyString Page.initialState), []).
Proof.
  apply (invalid_input_is_reported stopwords topN sampleLimit synthesize
           invalidInputMessage fetchChannel fetchVideo [] None
           {| Route.request_json := Returned noChannels |} noChannels
           Page.fetchOk
           (Page.setChannelsInput EmptyString Page.initialState)).
  - left. reflexivity.
  - reflexivity.
  - reflexivity.
  - reflexivity.
  - reflexivity.
Defined.

End SampleRuns.

(** ** The channel list as a function of the textarea *)

Module ChannelsFacts.
Import Js JsString JsStringFacts Page PageView.

#[local] Arguments LF : simpl never.
#[local] Arguments Ascii.eqb : simpl never.

Lemma split_LF_cons (s : string) : exists piece pieces, split_LF s = piece :: pieces.
Proof.
  induction s as [|c r (piece & pieces & IH)]; cbn.
  - exists EmptyString, []. reflexivity.
  - destruct (Ascii.eqb c LF).
    + exists EmptyString, (split_LF r). reflexivity.
    + rewrite IH. exists (String c piece), pieces. reflexivity.
Qed.

Lemma isWhiteSpace_LF (c : ascii) : Ascii.eqb c LF = true -> isWhiteSpace c = true.
Proof. intros H. apply Ascii.eqb_eq in H. subst c. reflexivity. Qed.

(** All lines are blank exactly when the whole text is. *)
Lemma lines_blank (s : string) : forallb is_blank (split_LF s) = is_blank s.
Proof.
  induction s as [|c r IH]; [reflexivity|].
  cbn [split_LF is_blank].
  destruct (Ascii.eqb c LF) eqn:E.
  - rewrite (isWhiteSpace_LF c E). cbn. exact IH.
  - destruct (split_LF_cons r) as (piece & pieces & Hr).
    rewrite Hr in IH |- *. cbn in IH |- *. rewrite <- IH.
    destruct (isWhiteSpace c), (is_blank piece); reflexivity.
Qed.

Lemma filter_nil_forallb {A : Type} (p : A -> bool) (l : list A) :
  filter (fun x => negb (p x)) l = [] <-> forallb p l = true.
Proof.
  induction l as [|x l IH]; cbn; [tauto|].
  destruct (p x); cbn; [exact IH|].
  split; discriminate.
Qed.

Lemma channels_nil_iff_blank (input : string) :
  channels input = [] <-> is_blank input = true.
Proof.
  rewrite PageFacts.channels_nonBlankLines. unfold nonBlankLines.
  rewrite <- lines_blank, <- filter_nil_forallb.
  destruct (filter (fun x => negb (is_blank x)) (split_LF input)); cbn;
    split; congruence.
Qed.

(** Splitting a text that joins two texts with a line feed. *)
Lemma split_LF_app (a b : string) :
  split_LF (a ++ String LF b) = split_LF a ++ split_LF b.
Proof.
  induction a as [|c a IH]; cbn; [rewrite Ascii.eqb_refl; reflexivity|].
  destruct (Ascii.eqb c LF); [rewrite IH; reflexivity|].
  rewrite IH. destruct (split_LF_cons a) as (piece & pieces & ->). reflexivity.
Qed.

Lemma channels_app (a b : string) :
  channels (a ++ String LF b) = channels a ++ channels b.
Proof.
  unfold channels. rewrite split_LF_app, map_app, filter_app. reflexivity.
Qed.

Lemma split_LF_pieces (s : string) :
  Forall (fun piece => has_line_feed piece = false) (split_LF s).
Proof.
  induction s as [|c r IH]; cbn; [repeat constructor|].
  destruct (Ascii.eqb c LF) eqn:E; [constructor; [reflexivity|exact IH]|].
  destruct (split_LF r) as [|piece pieces]; [repeat constructor; cbn; rewrite E; reflexivity|].
  inversion IH as [|? ? Hp Hps]; subst.
  constructor; [cbn; rewrite E, Hp; reflexivity|exact Hps].
Qed.

Lemma trimStart_line_feed (s : string) :
  has_line_feed s = false -> has_line_feed (trimStart s) = false.
Proof.
  induction s as [|c r IH]; cbn; [reflexivity|].
  intros H. apply orb_false_iff in H. destruct H as [Hc Hr].
  destruct (isWhiteSpace c); [exact (IH Hr)|].
  cbn. rewrite Hc, Hr. reflexivity.
Qed.

Lemma trimEnd_line_feed (s : string) :
  has_line_feed s = false -> has_line_feed (trimEnd s) = false.
Proof.
  induction s as [|c r IH]; cbn [trimEnd has_line_feed]; [reflexivity|].
  intros H. apply orb_false_iff in H. destruct H as [Hc Hr].
  specialize (IH Hr).
  destruct (trimEnd r) as [|d r'].
  - destruct (isWhiteSpace c); cbn; [reflexivity|].
    rewrite Hc. reflexivity.
  - change (has_line_feed (String c (String d r')))
      with (Ascii.eqb c LF || has_line_feed (String d r')).
    rewrite Hc, IH. reflexivity.
Qed.

Lemma channels_no_line_feed (input : string) :
  Forall (fun c => has_line_feed c = false) (channels input).
Proof.
  unfold channels. apply Forall_forall. intros c Hc.
  apply filter_In in Hc. destruct Hc as [Hc _].
  apply in_map_iff in Hc. destruct Hc as (line & <- & Hline).
  pose proof (split_LF_pieces input) as Hp.
  rewrite Forall_forall in Hp.
  unfold trim. apply trimEnd_line_feed, trimStart_line_feed, Hp, Hline.
Qed.

Lemma split_LF_single (s : string) : has_line_feed s = false -> split_LF s = [s].
Proof.
  induction s as [|c r IH]; cbn; [reflexivity|].
  intros H. apply orb_false_iff in H. destruct H as [Hc Hr].
  rewrite Hc, (IH Hr). reflexivity.
Qed.

(** A clean entry is what [channels] yields: not empty, trimmed, one line. *)
Lemma channels_of_clean_lines (l : list string) :
  Forall (fun c => c <> EmptyString /\ trim c = c /\ has_line_feed c = false) l ->
  channels (linesText l) = l.
Proof.
  unfold linesText.
  induction 1 as [|c l (Hne & Htrim & Hlf) Hl IH]; [reflexivity|].
  assert (Hone : channels c = [c]).
  { unfold channels. rewrite (split_LF_single c Hlf). cbn. rewrite Htrim.
    destruct c; [congruence|reflexivity]. }
  destruct l as [|d l]; [exact Hone|].
  change (join (String LF EmptyString) (c :: d :: l))
    with (c ++ String LF (join (String LF EmptyString) (d :: l)))%string.
  rewrite channels_app, Hone, IH. reflexivity.
Qed.

Lemma channels_clean (input : string) :
  Forall (fun c => c <> EmptyString /\ trim c = c /\ has_line_feed c = false)
    (channels input).
Proof.
  pose proof (channels_no_line_feed input) as Hlf.
  rewrite Forall_forall in Hlf |- *.
  intros c Hc. split; [|split; [|exact (Hlf c Hc)]].
  - unfold channels in Hc. apply filter_In in Hc. destruct Hc as [_ Ht].
    intros ->. discriminate.
  - unfold channels in Hc. apply filter_In in Hc. destruct Hc as [Hc Ht].
    apply in_map_iff in Hc. destruct Hc as (line & <- & _).
    apply trim_shape. intros E. rewrite E in Ht. discriminate.
Qed.

(** X1: [handleAnalyze] sends no request when the textarea holds white
    space only (line feeds included), and exactly one request otherwise. *)
Theorem handleAnalyze_guard_iff_blank (fetch : FetchRequest -> Outcome Response)
    (st : State) :
  snd (handleAnalyze fetch st)
  = if is_blank (channelsInput st) then [] else [analyzeRequest st].
Proof.
  unfold handleAnalyze.
  destruct (is_blank (channelsInput st)) eqn:E.
  - apply channels_nil_iff_blank in E. rewrite E. reflexivity.
  - destruct (channels (channelsInput st)) as [|c cs] eqn:Hc; [|reflexivity].
    apply channels_nil_iff_blank in Hc. congruence.
Qed.

(** X2: writing the channel list back, one entry per line, and reading it
    again gives the same list: [channels] normalizes the textarea. *)
Theorem channels_of_linesText (input : string) :
  channels (linesText (channels input)) = channels input.
Proof. apply channels_of_clean_lines, channels_clean. Qed.

(** X3: no element of the channel list contains a line feed. *)
Theorem channels_are_single_lines (input : string) :
  Forall (fun c => has_line_feed c = false) (channels input).
Proof. apply channels_no_line_feed. Qed.

(** X4: the channel list of two texts joined by a line feed is the list of
    the first followed by the list of the second. *)
Theorem channels_of_joined_texts (a b : string) :
  channels (a ++ String LF b) = channels a ++ channels b.
Proof. apply channels_app. Qed.

End ChannelsFacts.

(** ** Runs of [handleAnalyze] and what the page shows after them *)

Module HandleAnalyzeFacts.
Import Js JsString Page PageView.

(** The state a run that passes the guard leaves, by the outcome of the
    [try] block. *)
Lemma handleAnalyze_sent (fetch : FetchRequest -> Outcome Response) (st : State) :
  channels (channelsInput st) <> [] ->
  fst (handleAnalyze fetch st) =
    match tryBlock fetch st with
    | Returned j =>
        {| channelsInput := channelsInput st; videoUrl := videoUrl st;
           isLoading := false; error_ := None; data := Some j |}
    | Threw thrown =>
        {| channelsInput := channelsInput st; videoUrl := videoUrl st;
           isLoading := false;
           error_ := Some (message_or "Unexpected error occurred." thrown);
           data := None |}
    end.
Proof.
  unfold handleAnalyze. intros Hne.
  destruct (channels (channelsInput st)); [congruence|].
  destruct (tryBlock fetch st); reflexivity.
Qed.


(** What the [try] block does once a response with a parsed body is in. *)
Lemma tryBlock_answered (fetch : FetchRequest -> Outcome Response) (st : State)
    (response : Response) (j : ApiResponse) :
  fetch (analyzeRequest st) = Returned response ->
  response_json response = Returned j ->
  tryBlock fetch st =
    if (negb (ok response) || error_truthy j)%bool
    then Threw (ErrorInstance (or_else (error j) "Failed to analyze channels."))
    else Returned j.
Proof. unfold tryBlock, bind. intros -> ->. reflexivity. Qed.

(** What the [try] block does when [fetch] or [response.json()] throws. *)
Lemma tryBlock_interrupted (fetch : FetchRequest -> Outcome Response) (st : State)
    (thrown : Thrown) :
  fetch (analyzeRequest st) = Threw thrown
  \/ (exists response, fetch (analyzeRequest st) = Returned response
                       /\ response_json response = Threw thrown) ->
  tryBlock fetch st = Threw thrown.
Proof.
  unfold tryBlock, bind. intros [-> | (response & -> & ->)]; reflexivity.
Qed.


(** X6: when [fetch] rejects or [response.json()] throws, the run ends
    with [data] null and the error set to the message of the thrown
    [Error], or to "Unexpected error occurred." for any other value. *)
Theorem handleAnalyze_interrupted (fetch : FetchRequest -> Outcome Response)
    (st : State) (thrown : Thrown) :
  channels (channelsInput st) <> [] ->
  fetch (analyzeRequest st) = Threw thrown
  \/ (exists response, fetch (analyzeRequest st) = Returned response
                       /\ response_json response = Threw thrown) ->
  error_ (fst (handleAnalyze fetch st))
  = Some match thrown with
         | ErrorInstance message => message
         | NonError _ => "Unexpected error occurred."
         end
  /\ data (fst (handleAnalyze fetch st)) = None
  /\ isLoading (fst (handleAnalyze fetch st)) = false.
Proof.
  intros Hne Hthrown.
  rewrite (handleAnalyze_sent fetch st Hne), (tryBlock_interrupted fetch st thrown Hthrown).
  destruct thrown; repeat split.
Qed.

(** X7: after a run that passes the guard, [data] holds a response exactly
    when [fetch] resolved, the body parsed to that response, [response.ok]
    held and the body had no non-empty [error]. *)
Theorem handleAnalyze_data_iff (fetch : FetchRequest -> Outcome Response)
    (st : State) (j : ApiResponse) :
  channels (channelsInput st) <> [] ->
  (data (fst (handleAnalyze fetch st)) = Some j <->
   exists response,
     fetch (analyzeRequest st) = Returned response
     /\ response_json response = Returned j
     /\ ok response = true
     /\ error_truthy j = false).
Proof.
  intros Hne. rewrite (handleAnalyze_sent fetch st Hne).
  unfold tryBlock, bind. split.
  - destruct (fetch (analyzeRequest st)) as [response|e]; [|discriminate].
    destruct (response_json response) as [j'|e] eqn:Hj; [|discriminate].
    destruct (ok response) eqn:Hok; [|discriminate].
    destruct (error_truthy j') eqn:Ht; [discriminate|].
    cbn. intros [= <-]. exists response. repeat split; assumption.
  - intros (response & -> & -> & -> & ->). reflexivity.
Qed.

(** X8: a run that passes the guard discards what the state held before:
    two states with the same textarea and video link end in the same state
    and send the same request, whatever their earlier [isLoading], [error]
    and [data]. *)
Theorem handleAnalyze_discards_stale_state (fetch : FetchRequest -> Outcome Response)
    (st1 st2 : State) :
  channelsInput st1 = channelsInput st2 ->
  videoUrl st1 = videoUrl st2 ->
  channels (channelsInput st1) <> [] ->
  handleAnalyze fetch st1 = handleAnalyze fetch st2.
Proof.
  destruct st1 as [c1 v1 l1 e1 d1], st2 as [c2 v2 l2 e2 d2].
  cbn [channelsInput videoUrl]. intros <- <- Hne.
  unfold handleAnalyze, tryBlock, analyzeRequest. cbn [channelsInput videoUrl].
  destruct (channels c1); [congruence|].
  reflexivity.
Qed.

(** X9: no run of [handleAnalyze] changes the textarea or the video link,
    and no run sends more than one request. *)
Theorem handleAnalyze_keeps_inputs (fetch : FetchRequest -> Outcome Response)
    (st : State) :
  channelsInput (fst (handleAnalyze fetch st)) = channelsInput st
  /\ videoUrl (fst (handleAnalyze fetch st)) = videoUrl st
  /\ List.length (snd (handleAnalyze fetch st)) <= 1.
Proof.
  unfold handleAnalyze.
  destruct (channels (channelsInput st)); cbn; [auto|].
  destruct (tryBlock fetch st); cbn; auto.
Qed.



End HandleAnalyzeFacts.

(** ** The lists the page formats *)

Module FormatFacts.
Import Js Order JsString Page PageView SortFacts PrettyFacts.

Lemma sorted_entries_Permutation (freq : NumberRecord) :
  Permutation (Array_sort byCountDescending (Object_entries freq)) freq.
Proof.
  rewrite (Array_sort_Permutation _ byCountDescending (Object_entries freq)).
  apply Object_entries_Permutation.
Qed.

Lemma prettyEntries_nil (freq : NumberRecord) : prettyEntries freq = [] -> freq = [].
Proof.
  unfold prettyEntries, slice0. intros H.
  pose proof (Permutation_length (sorted_entries_Permutation freq)) as Hlen.
  destruct (Array_sort byCountDescending (Object_entries freq)); [|discriminate].
  destruct freq; [reflexivity|discriminate].
Qed.

Lemma join_cons_prefix (sep s : string) (rest : list string) :
  exists tail, join sep (s :: rest) = (s ++ tail)%string.
Proof.
  destruct rest as [|r rest]; cbn [join].
  - exists EmptyString. induction s as [|c s IH]; cbn; [reflexivity|].
    rewrite <- IH. reflexivity.
  - exists (sep ++ join sep (r :: rest))%string. reflexivity.
Qed.

Lemma append_assoc (a b c : string) : ((a ++ b) ++ c = a ++ (b ++ c))%string.
Proof. induction a as [|x a IH]; cbn; [reflexivity|]. rewrite IH. reflexivity. Qed.

Lemma upper_char_not_o (c : ascii) : upper_char c <> "o"%char.
Proof.
  destruct c as [[] [] [] [] [] [] [] []]; vm_compute; discriminate.
Qed.

(** An entry as [prettyFrequency] writes it is never the start of the
    placeholder text. *)
Lemma entry_is_not_placeholder (word rest : string) :
  (toUpperCase word ++ String " " rest)%string <> "No pattern data yet.".
Proof.
  unfold toUpperCase. destruct word as [|c1 [|c2 word]]; cbn.
  - discriminate.
  - intros H. injection H as _ H. discriminate.
  - intros H. injection H as _ H2 _.
    exact (upper_char_not_o c2 H2).
Qed.

Lemma split_item (item rest : string) :
  has_comma item = false ->
  split_comma_space (item ++ String "," (String " " rest))
  = item :: split_comma_space rest.
Proof.
  induction item as [|c item IH]; intros Hc.
  - reflexivity.
  - cbn [has_comma] in Hc. apply orb_false_iff in Hc. destruct Hc as [Hc Hitem].
    cbn [append split_comma_space]. rewrite Hc, (IH Hitem). reflexivity.
Qed.

Lemma split_last_item (item : string) :
  has_comma item = false -> split_comma_space item = [item].
Proof.
  induction item as [|c item IH]; intros Hc; [reflexivity|].
  cbn [has_comma] in Hc. apply orb_false_iff in Hc. destruct Hc as [Hc Hitem].
  cbn [split_comma_space]. rewrite Hc, (IH Hitem). reflexivity.
Qed.

Lemma split_join (items : list string) :
  items <> [] ->
  Forall (fun item => has_comma item = false) items ->
  split_comma_space (join ", " items) = items.
Proof.
  intros Hne Hall. induction Hall as [|x items Hx Hitems IH]; [congruence|].
  destruct items as [|y items]; [exact (split_last_item x Hx)|].
  change (join ", " (x :: y :: items))
    with (x ++ String "," (String " " (join ", " (y :: items))))%string.
  rewrite (split_item x _ Hx), IH; [reflexivity|discriminate].
Qed.

Lemma Forall_firstn {A : Type} (P : A -> Prop) (n : nat) (l : list A) :
  Forall P l -> Forall P (firstn n l).
Proof.
  intros H. rewrite Forall_forall in H |- *.
  intros x Hx. apply H. exact (In_firstn n l x Hx).
Qed.

(** X12: the text of [formatList] for a non-empty list of items without
    commas reads back, by [split(", ")], as the first ten items in order:
    it shows those ten, no item more and none less; for the empty list it
    is the dash. *)
Theorem formatList_shows_first_ten (items : list string) :
  items <> [] ->
  Forall (fun item => has_comma item = false) items ->
  split_comma_space (formatList items) = firstn 10 items
  /\ formatList [] = emDash.
Proof.
  intros Hne Hall. split; [|reflexivity].
  unfold formatList, slice0.
  destruct items as [|x items]; [congruence|].
  apply split_join; [discriminate|].
  apply Forall_firstn. exact Hall.
Qed.

(** X13: every entry [prettyFrequency] shows is an entry of the record;
    it shows six entries, or all of them when the record has fewer; and
    the entries of the record are the shown ones and a rest in which no
    entry has a higher count than a shown one. *)
Theorem prettyFrequency_shows_highest_counts (freq : NumberRecord) :
  incl (prettyEntries freq) freq
  /\ List.length (prettyEntries freq) = Nat.min 6 (List.length freq)
  /\ exists rest,
       Permutation (prettyEntries freq ++ rest) freq
       /\ forall shown hidden,
            In shown (prettyEntries freq) -> In hidden rest ->
            (snd hidden <= snd shown)%Z.
Proof.
  unfold prettyEntries, slice0.
  set (sorted := Array_sort byCountDescending (Object_entries freq)).
  assert (Hperm : Permutation sorted freq) by apply sorted_entries_Permutation.
  assert (Hs : StronglySorted count_ge sorted)
    by apply (Array_sort_sorted _ byCountDescending snd byCountDescending_snd).
  split; [|split].
  - intros e He. apply (Permutation_in e Hperm). exact (In_firstn 6 sorted e He).
  - rewrite length_firstn, (Permutation_length Hperm). reflexivity.
  - exists (skipn 6 sorted). rewrite (firstn_skipn 6 sorted). split; [exact Hperm|].
    rewrite <- (firstn_skipn 6 sorted) in Hs.
    intros shown hidden Hshown Hhidden.
    exact (StronglySorted_app_inv _ _ _ Hs shown hidden Hshown Hhidden).
Qed.

(** X14: [prettyFrequency] returns "No pattern data yet." exactly for the
    record without entries. *)
Theorem prettyFrequency_placeholder_iff_empty (freq : NumberRecord) :
  prettyFrequency freq = "No pattern data yet." <-> freq = [].
Proof.
  split; [|intros ->; reflexivity].
  unfold prettyFrequency.
  destruct (prettyEntries freq) as [|e es] eqn:E; [intros _; exact (prettyEntries_nil freq E)|].
  cbn [map].
  destruct (join_cons_prefix ", " (prettyEntry e) (map prettyEntry es)) as (tail & ->).
  unfold prettyEntry. intros H. exfalso.
  rewrite append_assoc in H. cbn [append] in H.
  exact (entry_is_not_placeholder _ _ H).
Qed.

End FormatFacts.

(** ** The route handler, and the page behind it *)

Module RouteExtraFacts.
Import Js Route.

Section Handler.
Variables Payload Result : Type.
Variable analyze : Payload -> Outcome Result.

Lemma POST_after_throw (request : Request Payload) (e : Thrown) :
  throws analyze request e ->
  POST analyze request
  = {| status := 400; body := ErrorBody (message_or "Unexpected error" e) |}.
Proof.
  unfold throws, POST, bind.
  intros [-> | (payload & -> & ->)]; reflexivity.
Qed.

(** The handler for results that may fail to serialise. *)
Variable stringify : Result -> Outcome string.

Lemma POST_serializes (request : Request Payload) :
  (forall result, exists text, stringify result = Returned text) ->
  RouteSerialized.POST analyze stringify request = POST analyze request.
Proof.
  intros Hs. unfold RouteSerialized.POST, POST, bind.
  destruct (request_json request) as [payload|e]; [|reflexivity].
  destruct (analyze payload) as [result|e]; [|reflexivity].
  destruct (Hs result) as (text & ->). reflexivity.
Qed.

(** X15: the answer of the handler is either status 200 with the result of
    the analysis as its body, when parsing, analysis and the serialising
    of the result all returned, or status 400 with an error body, when one
    of the three threw; a result never comes with 400, an error body never
    with 200. *)
Theorem POST_status_matches_body (request : Request Payload) :
  match body (RouteSerialized.POST analyze stringify request) with
  | ResultBody result =>
      status (RouteSerialized.POST analyze stringify request) = 200%Z
      /\ exists payload text,
           request_json request = Returned payload
           /\ analyze payload = Returned result
           /\ stringify result = Returned text
  | ErrorBody message =>
      status (RouteSerialized.POST analyze stringify request) = 400%Z
      /\ exists e, RouteSerialized.throws analyze stringify request e
                   /\ message = message_or "Unexpected error" e
  end.
Proof.
  unfold RouteSerialized.POST, RouteSerialized.throws, throws, bind.
  destruct (request_json request) as [payload|e] eqn:Hjson.
  - destruct (analyze payload) as [result|e] eqn:Hrun.
    + destruct (stringify result) as [text|e] eqn:Htext; cbn.
      * split; [reflexivity|]. exists payload, text. repeat split; assumption.
      * split; [reflexivity|]. exists e. split; [|reflexivity].
        right. exists payload, result. repeat split; assumption.
    + cbn. split; [reflexivity|]. exists e. split; [|reflexivity].
      left. right. exists payload. split; [reflexivity|exact Hrun].
  - cbn. split; [reflexivity|]. exists e. split; [|reflexivity].
    left. left. reflexivity.
Qed.

(** X16: when parsing or the analysis throws on the server and the page
    receives the handler's answer, the run ends with no results and the
    error paragraph shows the message of the thrown [Error] ("Unexpected
    error" for another thrown value), or "Failed to analyze channels."
    when that message is empty. *)
Theorem server_failure_reaches_the_page (request : Request Payload) (e : Thrown)
    (fetch : Page.FetchRequest -> Outcome Page.Response) (st : Page.State)
    (response : Page.Response) :
  throws analyze request e ->
  Wire.delivers (POST analyze request) response ->
  fetch (Page.analyzeRequest st) = Returned response ->
  Page.channels (Page.channelsInput st) <> [] ->
  let shown :=
    if String.eqb (message_or "Unexpected error" e) EmptyString
    then "Failed to analyze channels."
    else message_or "Unexpected error" e in
  Page.error_ (fst (Page.handleAnalyze fetch st)) = Some shown
  /\ PageView.errorBanner (fst (Page.handleAnalyze fetch st)) = Some shown
  /\ PageView.resultsSection (fst (Page.handleAnalyze fetch st)) = None.
Proof.
  intros Hthrows Hwire Hfetch Hne shown. subst shown.
  rewrite (POST_after_throw request e Hthrows) in Hwire.
  destruct Hwire as [Hok (j & Hjson & Herr)]. cbn in Hok, Herr.
  rewrite (HandleAnalyzeFacts.handleAnalyze_sent fetch st Hne).
  rewrite (HandleAnalyzeFacts.tryBlock_answered fetch st response j Hfetch Hjson).
  rewrite Hok, Herr. cbn.
  unfold PageView.errorBanner, PageView.resultsSection. cbn.
  destruct (message_or "Unexpected error" e); cbn; repeat split.
Qed.
End Handler.

End RouteExtraFacts.

(** ** Concrete runs of the page *)

Module PageRuns.
Import Js Page PageView PageSample.

Lemma initialState_passes_guard : channels (channelsInput initialState) <> [].
Proof. vm_compute. discriminate. Qed.


Lemma handleAnalyze_interrupted_witness :
  let run := handleAnalyze (fetchThrows (NonError "timeout")) initialState in
  error_ (fst run) = Some "Unexpected error occurred."
  /\ data (fst run) = None
  /\ isLoading (fst run) = false.
Proof.
  apply (HandleAnalyzeFacts.handleAnalyze_interrupted
           (fetchThrows (NonError "timeout")) initialState (NonError "timeout")).
  - exact initialState_passes_guard.
  - left. reflexivity.
Defined.

Lemma handleAnalyze_data_iff_witness :
  data (fst (handleAnalyze fetchOk initialState)) = Some emptyAnalysis.
Proof.
  apply (HandleAnalyzeFacts.handleAnalyze_data_iff fetchOk initialState emptyAnalysis
           initialState_passes_guard).
  exists {| ok := true; response_json := Returned emptyAnalysis |}.
  repeat split.
Defined.

Lemma handleAnalyze_discards_stale_state_witness :
  handleAnalyze fetchOk initialState = handleAnalyze fetchOk afterFailure.
Proof.
  apply (HandleAnalyzeFacts.handleAnalyze_discards_stale_state fetchOk
           initialState afterFailure).
  - reflexivity.
  - reflexivity.
  - exact initialState_passes_guard.
Defined.



Lemma formatList_shows_first_ten_witness :
  split_comma_space (formatList elevenKeywords) = firstn 10 elevenKeywords
  /\ formatList [] = emDash.
Proof.
  apply (FormatFacts.formatList_shows_first_ten elevenKeywords).
  - discriminate.
  - vm_compute. repeat constructor.
Defined.

Lemma server_failure_reaches_the_page_witness :
  let fetch := fetchAnswers false (errorObject EmptyString) in
  error_ (fst (handleAnalyze fetch initialState)) = Some "Failed to analyze channels."
  /\ errorBanner (fst (handleAnalyze fetch initialState))
     = Some "Failed to analyze channels."
  /\ resultsSection (fst (handleAnalyze fetch initialState)) = None.
Proof.
  apply (RouteExtraFacts.server_failure_reaches_the_page string nat
           (fun _ => Threw (ErrorInstance EmptyString))
           {| Route.request_json := Returned "{}" |}
           (ErrorInstance EmptyString)
           (fetchAnswers false (errorObject EmptyString)) initialState
           {| ok := false; response_json := Returned (errorObject EmptyString) |}).
  - right. exists "{}". split; reflexivity.
  - split; [reflexivity|]. exists (errorObject EmptyString). split; reflexivity.
  - reflexivity.
  - exact initialState_passes_guard.
Defined.

End PageRuns.
